(** * currency_bootstrap.py: month-aligned chunking, fetch with retry,
      validation and partitioned upload

    A shallow embedding of [infra/glue/scripts/currency_bootstrap.py] and of
    the parts of Python's [datetime], [requests] and string libraries the
    script computes with.  Logging and [time.sleep] change nothing the
    script later reads and are left out. *)

From Stdlib Require Import ZArith QArith_base List Bool String Ascii Lia DecimalString.
Import ListNotations.
Local Open Scope string_scope.
Local Open Scope Z_scope.

(** ** Python values, exceptions and outcomes *)

Unset Elimination Schemes.

(** What [json] parsing returns.  A finite float is the rational it denotes;
    [NaN] and the infinities, which Python's parser accepts, are apart. *)
Inductive pyval : Type :=
| PNone
| PBool (b : bool)
| PInt (z : Z)
| PFloat (q : Q)
| PFloatNonFinite
| PStr (s : string)
| PList (l : list pyval)
| PDict (items : list (string * pyval)).

(** The exceptions the script and its libraries raise.  [SystemExit] is the
    only one that is not a subclass of [Exception].  A message built by an
    f-string is kept as its literal text, with [{}] for each interpolated
    value, and the values. *)
Inductive exn : Type :=
| ValueError (text : string)
| OverflowError (text : string)
| JSONDecodeError
| RequestException (text : string)
| HTTPError (status : Z)
| S3UploadFailedError (text : string)
| RuntimeError (text : string) (values : list fvalue)
| SystemExit (code : Z)
with fvalue : Type :=
| FStr (s : string)
| FVal (v : pyval)
| FExn (e : exn).

Set Elimination Schemes.

Definition is_Exception (e : exn) : bool :=
  match e with
  | SystemExit _ => false
  | _ => true
  end.

(** The result of running a piece of code with a bounded number of loop
    iterations: a value, a raised exception, or the bound was reached. *)
Inductive outcome (A : Type) : Type :=
| Ok (a : A)
| Raise (e : exn)
| OutOfFuel.
Arguments Ok {A} a.
Arguments Raise {A} e.
Arguments OutOfFuel {A}.

Definition bind_outcome {A B} (c : outcome A) (k : A -> outcome B) : outcome B :=
  match c with
  | Ok a => k a
  | Raise e => Raise e
  | OutOfFuel => OutOfFuel
  end.

Notation "x <-- c ;; k" := (bind_outcome c (fun x => k))
  (at level 61, c at next level, right associativity).

(** ** Python's [datetime.date] *)

Module PyDate.

Definition MINYEAR : Z := 1.
Definition MAXYEAR : Z := 9999.
Definition _MAXORDINAL : Z := 3652059.

Record date : Type := mkdate { year : Z; month : Z; day : Z }.

Definition _DAYS_IN_MONTH (m : Z) : Z :=
  match m with
  | 1 => 31 | 2 => 28 | 3 => 31 | 4 => 30 | 5 => 31 | 6 => 30
  | 7 => 31 | 8 => 31 | 9 => 30 | 10 => 31 | 11 => 30 | 12 => 31
  | _ => -1
  end.

Definition _DAYS_BEFORE_MONTH (m : Z) : Z :=
  match m with
  | 1 => 0 | 2 => 31 | 3 => 59 | 4 => 90 | 5 => 120 | 6 => 151
  | 7 => 181 | 8 => 212 | 9 => 243 | 10 => 273 | 11 => 304 | 12 => 334
  | _ => -1
  end.

Definition _is_leap (y : Z) : bool :=
  (y mod 4 =? 0) && (negb (y mod 100 =? 0) || (y mod 400 =? 0)).

Definition _days_before_year (y : Z) : Z :=
  let y := y - 1 in y * 365 + y / 4 - y / 100 + y / 400.

Definition _days_in_month (y m : Z) : Z :=
  if (m =? 2) && _is_leap y then 29 else _DAYS_IN_MONTH m.

Definition _days_before_month (y m : Z) : Z :=
  _DAYS_BEFORE_MONTH m + (if (2 <? m) && _is_leap y then 1 else 0).

Definition _ymd2ord (y m d : Z) : Z :=
  _days_before_year y + _days_before_month y m + d.

Definition _DI400Y : Z := Eval cbv in _days_before_year 401.
Definition _DI100Y : Z := Eval cbv in _days_before_year 101.
Definition _DI4Y : Z := Eval cbv in _days_before_year 5.

Definition _ord2ymd (n : Z) : date :=
  let n := n - 1 in
  let n400 := n / _DI400Y in
  let n := n mod _DI400Y in
  let y := n400 * 400 + 1 in
  let n100 := n / _DI100Y in
  let n := n mod _DI100Y in
  let n4 := n / _DI4Y in
  let n := n mod _DI4Y in
  let n1 := n / 365 in
  let n := n mod 365 in
  let y := y + (n100 * 100 + n4 * 4 + n1) in
  if (n1 =? 4) || (n100 =? 4) then mkdate (y - 1) 12 31
  else
    let leapyear := (n1 =? 3) && (negb (n4 =? 24) || (n100 =? 3)) in
    let m := Z.shiftr (n + 50) 5 in
    let preceding :=
      _DAYS_BEFORE_MONTH m + (if (2 <? m) && leapyear then 1 else 0) in
    if n <? preceding then
      let m := m - 1 in
      let preceding :=
        preceding - (_DAYS_IN_MONTH m + (if (m =? 2) && leapyear then 1 else 0)) in
      mkdate y m (n - preceding + 1)
    else mkdate y m (n - preceding + 1).

(** [_check_date_fields]: the fields a [date] object can hold. *)
Definition check_date_fields (y m d : Z) : bool :=
  (MINYEAR <=? y) && (y <=? MAXYEAR) &&
  (1 <=? m) && (m <=? 12) &&
  (1 <=? d) && (d <=? _days_in_month y m).

Definition valid (d : date) : Prop :=
  check_date_fields (year d) (month d) (day d) = true.

(** [date(y, m, d)] *)
Definition new (y m d : Z) : outcome date :=
  if negb ((MINYEAR <=? y) && (y <=? MAXYEAR)) then
    Raise (ValueError "year is out of range")
  else if negb ((1 <=? m) && (m <=? 12)) then
    Raise (ValueError "month must be in 1..12")
  else if negb ((1 <=? d) && (d <=? _days_in_month y m)) then
    Raise (ValueError "day is out of range for month")
  else Ok (mkdate y m d).

Definition toordinal (d : date) : Z := _ymd2ord (year d) (month d) (day d).
Definition fromordinal (n : Z) : date := _ord2ymd n.

(** [timedelta(days=n)], of which the script only uses the day count. *)
Definition timedelta (days : Z) : outcome Z :=
  if 999999999 <? Z.abs days then
    Raise (OverflowError "timedelta # of days is too large")
  else Ok days.

(** [date.__add__] with a [timedelta] of [days] days. *)
Definition add (d : date) (days : Z) : outcome date :=
  let o := toordinal d + days in
  if (0 <? o) && (o <=? _MAXORDINAL) then Ok (fromordinal o)
  else Raise (OverflowError "date value out of range").

(** [date.__sub__] with a [timedelta]: [self + timedelta(-other.days)]. *)
Definition sub (d : date) (days : Z) : outcome date :=
  nd <-- timedelta (- days) ;; add d nd.

(** ["%04d-%02d-%02d" % (year, month, day)] *)
Definition digits (z : Z) : string :=
  NilZero.string_of_uint (N.to_uint (Z.to_N z)).

Fixpoint zeros (n : nat) : string :=
  match n with
  | O => EmptyString
  | S n' => String "0" (zeros n')
  end.

Definition zero_padded (width : nat) (z : Z) : string :=
  if z <? 0 then
    let s := digits (- z) in "-" ++ zeros (width - 1 - String.length s) ++ s
  else
    let s := digits z in zeros (width - String.length s) ++ s.

Definition isoformat (d : date) : string :=
  zero_padded 4 (year d) ++ "-" ++ zero_padded 2 (month d) ++ "-" ++
  zero_padded 2 (day d).

(** [fromisoformat] on the form [YYYY-MM-DD], the one [isoformat] writes;
    the other forms the library reads are not modelled and rejected. *)
Definition parse_digits (s : string) : option Z :=
  match NilEmpty.uint_of_string s with
  | Some u => Some (Z.of_N (N.of_uint u))
  | None => None
  end.

Definition fromisoformat (s : string) : outcome date :=
  match parse_digits (substring 0 4 s), parse_digits (substring 5 2 s),
        parse_digits (substring 8 2 s) with
  | Some y, Some m, Some d =>
      if (String.length s =? 10)%nat && String.eqb (substring 4 1 s) "-" &&
         String.eqb (substring 7 1 s) "-"
      then new y m d
      else Raise (ValueError "Invalid isoformat string")
  | _, _, _ => Raise (ValueError "Invalid isoformat string")
  end.

(** Comparison is that of the tuples [(year, month, day)]. *)
Definition ltb (a b : date) : bool :=
  (year a <? year b) ||
  ((year a =? year b) &&
   ((month a <? month b) ||
    ((month a =? month b) && (day a <? day b)))).

Definition eqb (a b : date) : bool :=
  (year a =? year b) && (month a =? month b) && (day a =? day b).

Definition leb (a b : date) : bool := ltb a b || eqb a b.

(** The builtin [min(a, b)]: the first of the smallest arguments. *)
Definition min (a b : date) : date := if ltb b a then b else a.

End PyDate.

Import PyDate.

(** ** Checking a predicate on every integer of a range *)

(** [check_range P k lo] tests [P] on [lo], [lo + 1], ..., [lo + 2^k - 1]. *)
Fixpoint check_range (P : Z -> bool) (k : nat) (lo : Z) : bool :=
  match k with
  | O => P lo
  | S k' => check_range P k' lo && check_range P k' (lo + 2 ^ Z.of_nat k')
  end.

(** The calendar repeats every 400 years: moving a date by [k] cycles. *)
Definition shift_years (k : Z) (d : date) : date :=
  mkdate (year d + 400 * k) (month d) (day d).

(** The last ordinal of the last (incomplete) cycle of [date]'s range. *)
Definition last_cycle_days : Z := Eval cbv in _MAXORDINAL - 24 * _DI400Y.

(** What is checked of ordinal [n] of the first 400-year cycle. *)
Definition ord_ok (n : Z) : bool :=
  negb ((1 <=? n) && (n <=? _DI400Y)) ||
  (let d := fromordinal n in
   (1 <=? year d) && (year d <=? 400) &&
   ((last_cycle_days <? n) || (year d <=? 399)) &&
   check_date_fields (year d) (month d) (day d) && (toordinal d =? n) &&
   ltb d (fromordinal (n + 1))).

(** What is checked of the fields [(y, m, d)] of a date of the first cycle. *)
Definition ymd_ok (y m d : Z) : bool :=
  negb ((y <=? 400) && check_date_fields y m d) ||
  (let n := _ymd2ord y m d in
   (1 <=? n) && (n <=? _DI400Y) &&
   ((400 <=? y) || (n <=? last_cycle_days)) &&
   eqb (fromordinal n) (mkdate y m d)).

(** A year has 365 days, and one more when it is a leap year. *)
Definition year_ok (y : Z) : bool :=
  _days_before_year (y + 1) =? _days_before_year y + 365 + (if _is_leap y then 1 else 0).

(** ** Python strings, truth values and dictionaries *)

Definition startswith (s p : string) : bool := String.prefix p s.

Definition endswith (s p : string) : bool :=
  let n := String.length s in
  let k := String.length p in
  (k <=? n)%nat && String.eqb (substring (n - k) k s) p.

(** [needle in hay] *)
Fixpoint str_in (needle hay : string) : bool :=
  String.prefix needle hay ||
  match hay with
  | EmptyString => false
  | String _ rest => str_in needle rest
  end.

(** [s.partition(sep)] for a non-empty [sep]. *)
Fixpoint partition (sep s : string) : string * string * string :=
  if String.prefix sep s then
    (EmptyString, sep,
     substring (String.length sep) (String.length s - String.length sep) s)
  else
    match s with
    | EmptyString => (EmptyString, EmptyString, EmptyString)
    | String c rest =>
        let '(before, found, after) := partition sep rest in
        (String c before, found, after)
    end.

(** [s.rstrip('/')] *)
Fixpoint rstrip_slash (s : string) : string :=
  match s with
  | EmptyString => EmptyString
  | String c rest =>
      match rstrip_slash rest with
      | EmptyString => if Ascii.eqb c "/" then EmptyString else String c EmptyString
      | rest' => String c rest'
      end
  end.

(** [bool(v)] *)
Definition truthy (v : pyval) : bool :=
  match v with
  | PNone => false
  | PBool b => b
  | PInt z => negb (z =? 0)
  | PFloat q => negb (Qnum q =? 0)
  | PFloatNonFinite => true
  | PStr s => negb (String.eqb s EmptyString)
  | PList l => match l with [] => false | _ => true end
  | PDict items => match items with [] => false | _ => true end
  end.

(** A dictionary is kept as the list of its items; the first item of a key
    is the one the dictionary holds. *)
Fixpoint dict_lookup {A} (items : list (string * A)) (k : string) : option A :=
  match items with
  | [] => None
  | (k', v) :: rest => if String.eqb k' k then Some v else dict_lookup rest k
  end.

(** [k in d] and [d.get(k)] *)
Definition dict_has {A} (items : list (string * A)) (k : string) : bool :=
  match dict_lookup items k with
  | Some _ => true
  | None => false
  end.

Definition dict_get (items : list (string * pyval)) (k : string) : pyval :=
  match dict_lookup items k with
  | Some v => v
  | None => PNone
  end.


(** [range(lo, hi)] *)
Definition range (lo hi : Z) : list Z :=
  map (fun i => lo + Z.of_nat i) (seq 0 (Z.to_nat (hi - lo))).

(** ** The world the script acts on *)

Record Request : Type := mkRequest {
  url : string;
  params : list (string * string);
  timeout : Z
}.

(** A response of [requests]: its status and what [r.json()] gives, [None]
    when the body is not JSON and [r.json()] raises. *)
Record Response : Type := mkResponse {
  status_code : Z;
  json : option pyval
}.

(** [requests.get] returns a response or raises (no connection, a timeout). *)
Inductive GetResult : Type :=
| GetRaises (text : string)
| GetReturns (r : Response).

(** One call of [upload_file]: the object it puts. *)
Record Upload : Type := mkUpload {
  bucket : string;
  key : string;
  body : pyval
}.

(** What the network and the object store answer, given what was asked of
    them before. *)
Record Env : Type := mkEnv {
  http : list Request -> Request -> GetResult;
  s3_upload : list Upload -> Upload -> option string
}.

(** What the script has done so far: the requests sent and the calls of
    [upload_file] made, in order. *)
Record World : Type := mkWorld {
  requests_sent : list Request;
  uploads : list Upload
}.

(** Code with effects: from a world to an outcome and the world after. *)
Definition M (A : Type) : Type := World -> outcome A * World.

Definition ret {A} (a : A) : M A := fun w => (Ok a, w).

Definition raise {A} (e : exn) : M A := fun w => (Raise e, w).

Definition lift {A} (c : outcome A) : M A := fun w => (c, w).

Definition bind {A B} (c : M A) (k : A -> M B) : M B :=
  fun w =>
    match c w with
    | (Ok a, w') => k a w'
    | (Raise e, w') => (Raise e, w')
    | (OutOfFuel, w') => (OutOfFuel, w')
    end.

Notation "x <- c ;; k" := (bind c (fun x => k))
  (at level 61, c at next level, right associativity).
Notation "c ;;; k" := (bind c (fun _ => k))
  (at level 61, right associativity).

(** [try: c  except Exception as e: handler(e)] *)
Definition try_except {A} (c : M A) (handler : exn -> M A) : M A :=
  fun w =>
    match c w with
    | (Raise e, w') => if is_Exception e then handler e w' else (Raise e, w')
    | r => r
    end.

(** ** Constants *)

Definition API_URL : string := "https://api.exchangerate.host/timeframe".
Definition DEFAULT_MAX_DAYS : Z := 365.
Definition RETRY_COUNT : Z := 3.

(** ** Date helpers: month end and chunk splitter *)

Definition month_end (d : date) : outcome date :=
  first_next <--
    (if month d =? 12 then PyDate.new (year d + 1) 1 1
     else PyDate.new (year d) (month d + 1) 1) ;;
  one <-- timedelta 1 ;;
  PyDate.sub first_next one.

(** A chunk: the dictionary [{"start_date": ..., "end_date": ...}]. *)
Record Chunk : Type := mkChunk {
  start_date : string;
  end_date : string
}.

(** The [while cur <= end_date] loop, run for at most [fuel] tests of its
    condition. *)
Fixpoint split_loop (fuel : nat) (cur end_date : date) (max_days : Z)
    (chunks : list Chunk) : outcome (list Chunk) :=
  match fuel with
  | O => OutOfFuel
  | S fuel' =>
      if leb cur end_date then
        me <-- month_end cur ;;
        let candidate_end := PyDate.min me end_date in
        delta <-- timedelta (max_days - 1) ;;
        max_by_days <-- PyDate.add cur delta ;;
        let chunk_end := PyDate.min candidate_end max_by_days in
        let chunks := (chunks ++ [mkChunk (isoformat cur) (isoformat chunk_end)])%list in
        one <-- timedelta 1 ;;
        cur' <-- PyDate.add chunk_end one ;;
        split_loop fuel' cur' end_date max_days chunks
      else Ok chunks
  end.

Definition split_into_month_aligned_chunks (fuel : nat)
    (start_date end_date : date) (max_days : Z) : outcome (list Chunk) :=
  split_loop fuel start_date end_date max_days [].

(** ** API call *)

Definition requests_get (E : Env) (req : Request) : M Response :=
  fun w =>
    let w' := mkWorld (requests_sent w ++ [req])%list (uploads w) in
    match http E (requests_sent w) req with
    | GetRaises text => (Raise (RequestException text), w')
    | GetReturns r => (Ok r, w')
    end.

Definition response_json (r : Response) : M pyval :=
  match json r with
  | Some v => ret v
  | None => raise JSONDecodeError
  end.

(** [Response.raise_for_status] raises for the client errors, 400 to 499,
    and the server errors, 500 to 599, and for no other status. *)
Definition raise_for_status (r : Response) : M unit :=
  if ((400 <=? status_code r) && (status_code r <? 500)) ||
     ((500 <=? status_code r) && (status_code r <? 600))
  then raise (HTTPError (status_code r))
  else ret tt.

(** The body of the [try] of one attempt. *)
Definition attempt (E : Env) (query : list (string * string)) : M pyval :=
  r <- requests_get E (mkRequest API_URL query 30) ;;
  body <- try_except (response_json r)
            (fun _ => raise (RuntimeError "Non-JSON response from API" [])) ;;
  (match body with
   | PDict items =>
       if match dict_get items "success" with PBool false => true | _ => false end
       then raise (RuntimeError "API returned success=false: {}"
                     [FVal (dict_get items "error")])
       else if dict_has items "error" && truthy (dict_get items "error")
       then raise (RuntimeError "API error: {}" [FVal (dict_get items "error")])
       else ret tt
   | _ => ret tt
   end) ;;;
  (if 400 <=? status_code r then raise_for_status r else ret tt) ;;;
  ret body.

(** The [for attempt in range(1, RETRY_COUNT + 1)] loop and what follows it. *)
Fixpoint retry_loop (E : Env) (attempts : list Z) (start_date end_date : string)
    (query : list (string * string)) (last_exc : option exn) : M pyval :=
  match attempts with
  | [] =>
      raise (RuntimeError "Failed to fetch timeframe {}->{}: {}"
               [FStr start_date; FStr end_date;
                match last_exc with Some e => FExn e | None => FVal PNone end])
  | _ :: rest =>
      fun w =>
        match attempt E query w with
        | (Raise e, w') =>
            if is_Exception e
            then retry_loop E rest start_date end_date query (Some e) w'
            else (Raise e, w')
        | r => r
        end
  end.

Definition call_timeframe (E : Env) (start_date end_date : string)
    (currencies : list string) (access_key : option string) : M pyval :=
  let query := [("start_date", start_date); ("end_date", end_date);
                ("currencies", String.concat "," currencies)] in
  let query :=
    match access_key with
    | Some k => if String.eqb k EmptyString then query
                else (query ++ [("access_key", k)])%list
    | None => query
    end in
  retry_loop E (range 1 (RETRY_COUNT + 1)) start_date end_date query None.

(** ** Upload helper *)

(** [boto3.client("s3").upload_file(tmp.name, bucket, key)] with the file
    holding [json.dump(obj)]; the temporary file is removed either way. *)
Definition upload_file (E : Env) (u : Upload) : M unit :=
  fun w =>
    let w' := mkWorld (requests_sent w) (uploads w ++ [u])%list in
    match s3_upload E (uploads w) u with
    | Some text => (Raise (S3UploadFailedError text), w')
    | None => (Ok tt, w')
    end.

Definition upload_json_to_s3 (E : Env) (obj : pyval) (s3_uri : string) : M unit :=
  if negb (startswith s3_uri "s3://") then
    raise (ValueError "S3 path must start with s3://")
  else if str_in "/currency-script/" s3_uri || endswith s3_uri "currency.py" then
    raise (RuntimeError "Refusing to upload to script path" [])
  else
    let '(_, _, rest) := partition "s3://" s3_uri in
    let '(bucket, _, key) := partition "/" rest in
    upload_file E (mkUpload bucket key obj).

(** ** Main *)

(** The arguments of a run, read: [START_DATE] and [END_DATE] as the dates
    [datetime.fromisoformat] made of them, [CURRENCIES] split, and
    [MAX_DAYS_PER_CALL] as the integer [int] made of it. *)
Record Args : Type := mkArgs {
  S3_OUTPUT : option string;
  START_DATE : date;
  END_DATE : date;
  CURRENCIES : list string;
  ACCESS_KEY : option string;
  MAX_DAYS_PER_CALL : Z
}.

(** How lines 234 to 241 of [main] sort a payload. *)
Inductive Classification : Type :=
| Usable
| Skippable (reason : string).

Definition validate (data : pyval) : Classification :=
  match data with
  | PDict items =>
      if (negb (dict_has items "rates") || negb (truthy (dict_get items "rates"))) &&
         (negb (dict_has items "quotes") || negb (truthy (dict_get items "quotes")))
      then Skippable "No 'rates' or 'quotes' in response"
      else Usable
  | _ => Skippable "Unexpected data type"
  end.

(** The [for chunk in chunks] loop. *)
Fixpoint chunk_loop (E : Env) (s3_output : string) (currencies : list string)
    (access_key : option string) (chunks : list Chunk) (any_uploaded : bool)
    : M bool :=
  match chunks with
  | [] => ret any_uploaded
  | chunk :: rest =>
      data <- call_timeframe E (start_date chunk) (end_date chunk)
                currencies access_key ;;
      match validate data with
      | Skippable _ =>
          chunk_loop E s3_output currencies access_key rest any_uploaded
      | Usable =>
          start_dt <- lift (fromisoformat (start_date chunk)) ;;
          let year_str := zero_padded 4 (year start_dt) in
          let month_str := zero_padded 2 (month start_dt) in
          let filename :=
            "timeframe_" ++ start_date chunk ++ "_to_" ++ end_date chunk ++ ".json" in
          let s3_key_prefix :=
            rstrip_slash s3_output ++ "/year=" ++ year_str ++ "/month=" ++ month_str in
          let s3_target := s3_key_prefix ++ "/" ++ filename in
          upload_json_to_s3 E data s3_target ;;;
          chunk_loop E s3_output currencies access_key rest true
      end
  end.

Definition main (E : Env) (fuel : nat) (args : Args) : M unit :=
  match S3_OUTPUT args with
  | None => raise (SystemExit 2)
  | Some s3_output =>
      if String.eqb s3_output EmptyString then raise (SystemExit 2)
      else
        let '(sdate, edate) :=
          if ltb (END_DATE args) (START_DATE args)
          then (END_DATE args, START_DATE args)
          else (START_DATE args, END_DATE args) in
        chunks <- lift (split_into_month_aligned_chunks fuel sdate edate
                          (MAX_DAYS_PER_CALL args)) ;;
        any_uploaded <- chunk_loop E s3_output (CURRENCIES args)
                          (ACCESS_KEY args) chunks false ;;
        if negb any_uploaded then
          raise (RuntimeError
                   "No raw JSON uploaded; check API key and parameters" [])
        else ret tt
  end.

(** The [if __name__ == "__main__"] block: the exit status of the process. *)
Definition script (E : Env) (fuel : nat) (args : Args) : M Z :=
  fun w =>
    match main E fuel args w with
    | (Ok _, w') => (Ok 0, w')
    | (Raise (SystemExit code), w') => (Ok code, w')
    | (Raise _, w') => (Ok 1, w')
    | (OutOfFuel, w') => (OutOfFuel, w')
    end.

(** ** Chunks as intervals of dates *)

(** The dates a chunk was written from: its start and its end. *)
Definition interval : Type := (date * date)%type.

Definition chunk_of (iv : interval) : Chunk :=
  mkChunk (isoformat (fst iv)) (isoformat (snd iv)).

(** [d] lies in the closed interval. *)
Definition in_interval (d : date) (iv : interval) : bool :=
  leb (fst iv) d && leb d (snd iv).

(** Each start is the day after the end before it. *)
Fixpoint contiguous (ivs : list interval) : Prop :=
  match ivs with
  | iv :: (iv' :: _) as rest =>
      PyDate.add (snd iv) 1 = Ok (fst iv') /\ contiguous rest
  | _ => True
  end.

(** Each interval starts no later than it ends, and ends before the next
    one starts. *)
Fixpoint ordered (ivs : list interval) : Prop :=
  match ivs with
  | iv :: (iv' :: _) as rest =>
      leb (fst iv) (snd iv) = true /\ ltb (snd iv) (fst iv') = true /\ ordered rest
  | [iv] => leb (fst iv) (snd iv) = true
  | [] => True
  end.

(** The number of days of an interval, [(end - start).days + 1]. *)
Definition span_days (iv : interval) : Z :=
  toordinal (snd iv) - toordinal (fst iv) + 1.

Definition same_month (a b : date) : Prop :=
  year a = year b /\ month a = month b.

(** The last day of the month of [d]. *)
Definition last_of_month (d : date) : date :=
  mkdate (year d) (month d) (_days_in_month (year d) (month d)).

(** The inputs on which no date the splitter computes leaves the range of
    [date]: the end is before December 9999, whose month end needs the first
    day of year 10000, and [max_days - 1] days after it is a date. *)
Definition in_date_range (end_date : date) (max_days : Z) : Prop :=
  ltb end_date (mkdate 9999 12 1) = true /\
  toordinal end_date + (max_days - 1) <= _MAXORDINAL.

(** One turn of the loop of the splitter at the cursor [a]: it writes the
    chunk from [a] to [b] and moves the cursor to [next]. *)
Definition loop_turn (end_date : date) (max_days : Z) (a b next : date) : Prop :=
  exists me max_by_days,
    month_end a = Ok me /\
    timedelta (max_days - 1) = Ok (max_days - 1) /\
    PyDate.add a (max_days - 1) = Ok max_by_days /\
    b = PyDate.min (PyDate.min me end_date) max_by_days /\
    PyDate.add b 1 = Ok next.

(** The intervals written from the cursor at ordinal [lo] on, up to the end
    at ordinal [hi]. *)
Fixpoint chain (end_date : date) (max_days : Z) (lo hi : Z)
    (ivs : list interval) : Prop :=
  match ivs with
  | [] => lo = hi + 1
  | (a, b) :: rest =>
      valid a /\ valid b /\ toordinal a = lo /\ lo <= toordinal b <= hi /\
      (exists next, loop_turn end_date max_days a b next) /\
      chain end_date max_days (toordinal b + 1) hi rest
  end.

(** The dates a chunk's two texts are read back to. *)
Definition chunk_dates (c : Chunk) : outcome interval :=
  a <-- fromisoformat (start_date c) ;;
  b <-- fromisoformat (end_date c) ;;
  Ok (a, b).

(** What is checked of the [width] characters written for [z]. *)
Definition padded_ok (width : nat) (hi : Z) (z : Z) : bool :=
  negb ((0 <=? z) && (z <=? hi)) ||
  (let s := zero_padded width z in
   (String.length s =? width)%nat &&
   match parse_digits s with
   | Some z' => z' =? z
   | None => false
   end).

(** ** The run *)

(** The dictionary has a field [k] that is not empty: ["k" in d and d.get("k")]. *)
Definition nonempty_field (items : list (string * pyval)) (k : string) : bool :=
  dict_has items k && truthy (dict_get items k).

(** The self-overwrite guard of [upload_json_to_s3]. *)
Definition script_path (s3_uri : string) : bool :=
  str_in "/currency-script/" s3_uri || endswith s3_uri "currency.py".

(** The dates [main] splits: [START_DATE] and [END_DATE], swapped when the
    start is after the end. *)
Definition run_interval (args : Args) : interval :=
  if ltb (END_DATE args) (START_DATE args)
  then (END_DATE args, START_DATE args)
  else (START_DATE args, END_DATE args).

(** The destination [main] computes for a chunk whose start reads back as
    [start_dt]. *)
Definition s3_target_of (s3_output : string) (chunk : Chunk) (start_dt : date)
    : string :=
  let year_str := zero_padded 4 (year start_dt) in
  let month_str := zero_padded 2 (month start_dt) in
  let filename :=
    "timeframe_" ++ start_date chunk ++ "_to_" ++ end_date chunk ++ ".json" in
  let s3_key_prefix :=
    rstrip_slash s3_output ++ "/year=" ++ year_str ++ "/month=" ++ month_str in
  s3_key_prefix ++ "/" ++ filename.

(** The error of a run that uploaded nothing. *)
Definition no_data_ingested : exn :=
  RuntimeError "No raw JSON uploaded; check API key and parameters" [].

(** The error of the self-overwrite guard. *)
Definition write_rejected : exn :=
  RuntimeError "Refusing to upload to script path" [].

(** What the claims call a failed attempt: the request raised, the body is
    not JSON, the body says [success: false] or has an [error] that is not
    empty, or the status is 400 or more. *)
Definition failed_attempt (g : GetResult) : bool :=
  match g with
  | GetRaises _ => true
  | GetReturns r =>
      match json r with
      | None => true
      | Some (PDict items) =>
          match dict_get items "success" with PBool false => true | _ => false end
          || nonempty_field items "error" || (400 <=? status_code r)
      | Some _ => 400 <=? status_code r
      end
  end.

(** The query [call_timeframe] sends. *)
Definition query_of (start_date end_date : string) (currencies : list string)
    (access_key : option string) : list (string * string) :=
  let query := [("start_date", start_date); ("end_date", end_date);
                ("currencies", String.concat "," currencies)] in
  match access_key with
  | Some k => if String.eqb k EmptyString then query
              else (query ++ [("access_key", k)])%list
  | None => query
  end.

(** A network that answers every request with status 200 and the same body,
    and a store that takes every object. *)
Definition constant_env (body : pyval) : Env :=
  mkEnv (fun _ _ => GetReturns (mkResponse 200 (Some body))) (fun _ _ => None).

(** A network that answers every request with the same status and body. *)
Definition status_env (status : Z) (body : pyval) : Env :=
  mkEnv (fun _ _ => GetReturns (mkResponse status (Some body))) (fun _ _ => None).

Definition empty_world : World := mkWorld [] [].

(** The world after [k] more requests [req]. *)
Definition after_requests (w : World) (req : Request) (k : nat) : World :=
  mkWorld (requests_sent w ++ repeat req k) (uploads w).

(** The message of the error that ends [call_timeframe]. *)
Definition fetch_failed (start_date end_date : string) (cause : fvalue) : exn :=
  RuntimeError "Failed to fetch timeframe {}->{}: {}"
    [FStr start_date; FStr end_date; cause].

(** The cause the error that ends [call_timeframe] carries: the exception
    of the last attempt, or what [last_exc] held when no attempt was left. *)
Definition last_cause (E : Env) (query : list (string * string))
    (attempts : list Z) (last_exc : option exn) (w : World) (cause : fvalue)
    : Prop :=
  match attempts with
  | [] => cause = match last_exc with Some e => FExn e | None => FVal PNone end
  | _ :: _ =>
      exists ex,
        cause = FExn ex /\
        fst (attempt E query
               (after_requests w (mkRequest API_URL query 30)
                  (List.length attempts - 1)))
        = Raise ex
  end.

(** ** Runs used as examples *)

(** The run of scenario B of the design: 2025-05-15 to 2025-06-10, at most
    365 days per call. *)
Definition example_args (s3_output : string) (max_days : Z) : Args :=
  mkArgs (Some s3_output) (mkdate 2025 5 15) (mkdate 2025 6 10)
    ["USD"; "EUR"; "INR"] None max_days.

Definition empty_rates : pyval :=
  PDict [("success", PBool true); ("rates", PDict [])].

Definition some_quotes : pyval :=
  PDict [("success", PBool true);
         ("quotes", PDict [("USDEUR", PFloat (Qmake 9 10))])].

Definition api_error : pyval :=
  PDict [("success", PBool false);
         ("error", PDict [("code", PInt 101); ("type", PStr "invalid_access_key")])].

(** ** CLI parser *)

(** [s.lstrip("-")] *)
Fixpoint lstrip_dash (s : string) : string :=
  match s with
  | EmptyString => EmptyString
  | String c rest => if Ascii.eqb c "-" then lstrip_dash rest else s
  end.

(** [d[k] = v]: the value of [k] is replaced where [k] stands, and a new key
    goes to the end. *)
Fixpoint dict_set {A} (items : list (string * A)) (k : string) (v : A)
    : list (string * A) :=
  match items with
  | [] => [(k, v)]
  | (k', v') :: rest =>
      if String.eqb k' k then (k', v) :: rest
      else (k', v') :: dict_set rest k v
  end.

Section CommandLine.

(** [str.upper], which follows Unicode's case mapping, is a parameter. *)
Variable upper : string -> string.

(** The [while i < len(argv)] loop of [parse_cli_args], on the tokens from
    [argv[i]] on. *)
Fixpoint parse_tokens (tokens : list string) (out : list (string * string))
    : list (string * string) :=
  match tokens with
  | [] => out
  | token :: rest =>
      if negb (startswith token "--") then parse_tokens rest out
      else
        let key := lstrip_dash token in
        if str_in "=" key then
          let '(k, _, v) := partition "=" key in
          parse_tokens rest (dict_set out (upper k) v)
        else
          match rest with
          | next :: rest' =>
              if negb (startswith next "--")
              then parse_tokens rest' (dict_set out (upper key) next)
              else parse_tokens rest (dict_set out (upper key) EmptyString)
          | [] => parse_tokens rest (dict_set out (upper key) EmptyString)
          end
  end.

Definition parse_cli_args (argv : list string) : list (string * string) :=
  parse_tokens (List.tl argv) [].

End CommandLine.

(** The case mapping of [str.upper] on ASCII letters, for examples. *)
Definition ascii_upper_char (c : ascii) : ascii :=
  let n := nat_of_ascii c in
  if ((97 <=? n) && (n <=? 122))%nat then ascii_of_nat (n - 32) else c.

Fixpoint ascii_upper (s : string) : string :=
  match s with
  | EmptyString => EmptyString
  | String c rest => String (ascii_upper_char c) (ascii_upper rest)
  end.

(** ** More on chunks and runs *)

(** The first day of the month after that of [d]. *)
Definition first_of_next_month (d : date) : date :=
  if month d =? 12 then mkdate (year d + 1) 1 1
  else mkdate (year d) (month d + 1) 1.




(** A network whose [k]-th answer is the [k]-th element of the list, and the
    last one from then on; a store that takes every object. *)
Definition scripted_env (answers : list GetResult) (last : GetResult) : Env :=
  mkEnv (fun sent _ => nth (List.length sent) answers last) (fun _ _ => None).

(** A store that refuses every object, behind a network that answers every
    request with status 200 and the same body. *)
Definition failing_store_env (body : pyval) (text : string) : Env :=
  mkEnv (fun _ _ => GetReturns (mkResponse 200 (Some body)))
        (fun _ _ => Some text).

(** * Verification *)

(** * The calendar: ordinals and dates correspond *)

Lemma check_range_sound (P : Z -> bool) (k : nat) :
  forall lo, check_range P k lo = true ->
  forall n, lo <= n < lo + 2 ^ Z.of_nat k -> P n = true.
Proof.
  induction k as [|k IH]; intros lo H n Hn.
  - simpl in Hn. assert (n = lo) by lia. subst. exact H.
  - cbn [check_range] in H. apply andb_true_iff in H. destruct H as [H1 H2].
    rewrite Nat2Z.inj_succ, Z.pow_succ_r in Hn by lia.
    destruct (Z_lt_le_dec n (lo + 2 ^ Z.of_nat k)).
    + apply (IH lo H1). lia.
    + apply (IH _ H2). lia.
Qed.

Lemma _is_leap_period y k : _is_leap (y + 400 * k) = _is_leap y.
Proof.
  unfold _is_leap.
  replace (y + 400 * k) with (y + (100 * k) * 4) at 1 by lia.
  replace (y + 400 * k) with (y + (4 * k) * 100) at 1 by lia.
  replace (y + 400 * k) with (y + k * 400) by lia.
  now rewrite !Z.mod_add by discriminate.
Qed.

Lemma _days_before_year_period y k :
  _days_before_year (y + 400 * k) = _days_before_year y + _DI400Y * k.
Proof.
  unfold _days_before_year, _DI400Y. cbv zeta.
  replace ((y + 400 * k - 1) / 4) with ((y - 1 + (100 * k) * 4) / 4) by (f_equal; lia).
  replace ((y + 400 * k - 1) / 100) with ((y - 1 + (4 * k) * 100) / 100) by (f_equal; lia).
  replace ((y + 400 * k - 1) / 400) with ((y - 1 + k * 400) / 400) by (f_equal; lia).
  rewrite !Z.div_add by discriminate. lia.
Qed.

Lemma _days_in_month_period y k m :
  _days_in_month (y + 400 * k) m = _days_in_month y m.
Proof. unfold _days_in_month. now rewrite _is_leap_period. Qed.

Lemma toordinal_period d k :
  toordinal (shift_years k d) = toordinal d + _DI400Y * k.
Proof.
  unfold toordinal, shift_years, _ymd2ord, _days_before_month.
  cbn [year month day].
  rewrite _is_leap_period, _days_before_year_period. lia.
Qed.

Lemma fromordinal_period n k :
  fromordinal (n + _DI400Y * k) = shift_years k (fromordinal n).
Proof.
  unfold fromordinal, _ord2ymd, shift_years.
  replace (n + _DI400Y * k - 1) with (n - 1 + k * _DI400Y) by lia.
  rewrite Z.div_add, Z.mod_add by discriminate.
  cbv zeta.
  repeat match goal with
         | |- context [if ?b then _ else _] => destruct b
         end; cbn [year month day]; f_equal; lia.
Qed.

(** ** The three exhaustive checks *)

Lemma ord_ok_all : check_range ord_ok 18 0 = true.
Proof. vm_cast_no_check (eq_refl true). Qed.

Lemma ymd_ok_all :
  check_range
    (fun y => check_range (fun m => check_range (ymd_ok y m) 5 0) 4 0) 9 0 = true.
Proof. vm_cast_no_check (eq_refl true). Qed.

Lemma year_ok_all : check_range year_ok 14 0 = true.
Proof. vm_cast_no_check (eq_refl true). Qed.

(** ** Comparison of dates *)

Lemma check_date_fields_iff y m d :
  check_date_fields y m d = true <->
  1 <= y <= 9999 /\ 1 <= m <= 12 /\ 1 <= d <= _days_in_month y m.
Proof.
  unfold check_date_fields, MINYEAR, MAXYEAR.
  rewrite !andb_true_iff, !Z.leb_le. tauto.
Qed.

Lemma ltb_iff a b :
  ltb a b = true <->
  year a < year b \/
  (year a = year b /\
   (month a < month b \/ (month a = month b /\ day a < day b))).
Proof.
  unfold ltb.
  rewrite !orb_true_iff, !andb_true_iff, !orb_true_iff, !andb_true_iff,
    !Z.ltb_lt, !Z.eqb_eq.
  tauto.
Qed.

Lemma eqb_eq a b : eqb a b = true <-> a = b.
Proof.
  unfold eqb. rewrite !andb_true_iff, !Z.eqb_eq.
  destruct a, b; cbn [year month day]. split.
  - intros [[-> ->] ->]. reflexivity.
  - intros H. injection H. auto.
Qed.

Lemma ltb_trans a b c : ltb a b = true -> ltb b c = true -> ltb a c = true.
Proof. rewrite !ltb_iff. lia. Qed.

Lemma ltb_irrefl a : ltb a a = false.
Proof.
  destruct (ltb a a) eqn:E; [|reflexivity]. apply ltb_iff in E. lia.
Qed.

Lemma ltb_asym a b : ltb a b = true -> ltb b a = false.
Proof.
  intros H. destruct (ltb b a) eqn:E; [|reflexivity].
  apply ltb_iff in H, E. lia.
Qed.

Lemma ltb_shift_years k a b :
  ltb (shift_years k a) (shift_years k b) = ltb a b.
Proof.
  apply eq_iff_eq_true. rewrite !ltb_iff. unfold shift_years.
  cbn [year month day]. lia.
Qed.

(** ** From ordinals to dates and back *)

Lemma cycle_split n :
  1 <= n <= _MAXORDINAL ->
  exists k r, n = r + _DI400Y * k /\ 1 <= r <= _DI400Y /\ 0 <= k <= 24 /\
              (k = 24 -> r <= last_cycle_days).
Proof.
  intros Hn. exists ((n - 1) / _DI400Y), ((n - 1) mod _DI400Y + 1).
  unfold _MAXORDINAL, _DI400Y, last_cycle_days in *.
  pose proof (Z.div_mod (n - 1) 146097 ltac:(lia)).
  pose proof (Z.mod_pos_bound (n - 1) 146097 ltac:(lia)).
  repeat split; try lia.
Qed.

Lemma ord_ok_first_cycle r :
  1 <= r <= _DI400Y ->
  let d := fromordinal r in
  1 <= year d <= 400 /\ (r <= last_cycle_days -> year d <= 399) /\
  check_date_fields (year d) (month d) (day d) = true /\
  toordinal d = r /\ ltb d (fromordinal (r + 1)) = true.
Proof.
  intros Hr.
  pose proof (check_range_sound ord_ok 18 0 ord_ok_all r) as H.
  assert (Hb : 0 <= r < 0 + 2 ^ Z.of_nat 18) by (unfold _DI400Y in Hr; simpl; lia).
  specialize (H Hb). unfold ord_ok in H.
  replace ((1 <=? r) && (r <=? _DI400Y)) with true in H
    by (symmetry; apply andb_true_iff; rewrite !Z.leb_le; lia).
  cbn [negb orb] in H. cbv zeta in *.
  rewrite !andb_true_iff, orb_true_iff, !Z.leb_le, Z.ltb_lt, Z.eqb_eq in H.
  intuition lia.
Qed.

Lemma fromordinal_facts n :
  1 <= n <= _MAXORDINAL ->
  valid (fromordinal n) /\ toordinal (fromordinal n) = n /\
  ltb (fromordinal n) (fromordinal (n + 1)) = true.
Proof.
  intros Hn. destruct (cycle_split n Hn) as (k & r & -> & Hr & Hk & Hlast).
  destruct (ord_ok_first_cycle r Hr) as (Hy & Hy' & Hv & Hto & Hlt).
  replace (r + _DI400Y * k + 1) with (r + 1 + _DI400Y * k) by lia.
  rewrite !fromordinal_period, toordinal_period, ltb_shift_years, Hto.
  repeat split; try assumption.
  unfold valid, shift_years. cbn [year month day].
  apply check_date_fields_iff in Hv. apply check_date_fields_iff.
  rewrite _days_in_month_period.
  repeat split; lia.
Qed.

Lemma fromordinal_valid n : 1 <= n <= _MAXORDINAL -> valid (fromordinal n).
Proof. intros H. apply fromordinal_facts, H. Qed.

Lemma toordinal_fromordinal n :
  1 <= n <= _MAXORDINAL -> toordinal (fromordinal n) = n.
Proof. intros H. apply fromordinal_facts, H. Qed.

Lemma ymd_ok_first_cycle y m d :
  y <= 400 -> check_date_fields y m d = true ->
  let n := _ymd2ord y m d in
  1 <= n <= _DI400Y /\ (y <= 399 -> n <= last_cycle_days) /\
  fromordinal n = mkdate y m d.
Proof.
  intros Hy Hv. pose proof Hv as Hf. apply check_date_fields_iff in Hf.
  assert (Hd : d <= 31).
  { destruct Hf as (_ & Hm & Hd). unfold _days_in_month in Hd.
    assert (Hc : m = 1 \/ m = 2 \/ m = 3 \/ m = 4 \/ m = 5 \/ m = 6 \/ m = 7 \/
                 m = 8 \/ m = 9 \/ m = 10 \/ m = 11 \/ m = 12) by lia.
    destruct ((m =? 2) && _is_leap y); [lia|].
    repeat (destruct Hc as [-> | Hc]; [simpl in Hd; lia|]). subst; simpl in Hd; lia. }
  pose proof (check_range_sound _ 9 0 ymd_ok_all y ltac:(simpl; lia)) as H1.
  pose proof (check_range_sound _ 4 0 H1 m ltac:(simpl; lia)) as H2.
  pose proof (check_range_sound _ 5 0 H2 d ltac:(simpl; lia)) as H3.
  unfold ymd_ok in H3. rewrite Hv in H3.
  replace (y <=? 400) with true in H3 by (symmetry; apply Z.leb_le; lia).
  cbn [negb andb orb] in H3. cbv zeta in *.
  rewrite !andb_true_iff, orb_true_iff, !Z.leb_le, eqb_eq in H3.
  intuition lia.
Qed.

Lemma toordinal_facts d :
  valid d -> 1 <= toordinal d <= _MAXORDINAL /\ fromordinal (toordinal d) = d.
Proof.
  destruct d as [y m dd]. unfold valid. cbn [year month day]. intros Hv.
  pose proof Hv as Hf. apply check_date_fields_iff in Hf.
  set (k := (y - 1) / 400). set (y0 := (y - 1) mod 400 + 1).
  pose proof (Z.div_mod (y - 1) 400 ltac:(lia)) as Hdm.
  pose proof (Z.mod_pos_bound (y - 1) 400 ltac:(lia)) as Hmb.
  assert (Ey : y = y0 + 400 * k) by (unfold y0, k; lia).
  assert (Hk : 0 <= k <= 24) by (unfold k in *; lia).
  assert (Hy0 : 1 <= y0 <= 400) by (unfold y0; lia).
  assert (Hlast : k = 24 -> y0 <= 399) by lia.
  assert (Hv0 : check_date_fields y0 m dd = true).
  { apply check_date_fields_iff. rewrite Ey, _days_in_month_period in Hf. lia. }
  destruct (ymd_ok_first_cycle y0 m dd ltac:(lia) Hv0) as (Hn & Hn' & Hfrom).
  change (mkdate y m dd) with (mkdate y m dd).
  replace (mkdate y m dd) with (shift_years k (mkdate y0 m dd))
    by (unfold shift_years; cbn [year month day]; f_equal; lia).
  rewrite toordinal_period.
  change (toordinal (mkdate y0 m dd)) with (_ymd2ord y0 m dd).
  rewrite fromordinal_period, Hfrom.
  split; [|reflexivity].
  unfold _MAXORDINAL, _DI400Y, last_cycle_days in *.
  destruct (Z.eq_dec k 24) as [E|E]; [specialize (Hn' (Hlast E))|]; lia.
Qed.

Lemma toordinal_range d : valid d -> 1 <= toordinal d <= _MAXORDINAL.
Proof. intros H. apply toordinal_facts, H. Qed.

Lemma fromordinal_toordinal d : valid d -> fromordinal (toordinal d) = d.
Proof. intros H. apply toordinal_facts, H. Qed.

Lemma toordinal_inj a b :
  valid a -> valid b -> toordinal a = toordinal b -> a = b.
Proof.
  intros Ha Hb E.
  rewrite <- (fromordinal_toordinal a Ha), <- (fromordinal_toordinal b Hb).
  now rewrite E.
Qed.

(** ** The order of dates is the order of their ordinals *)

Lemma fromordinal_lt n m :
  1 <= n -> n < m -> m <= _MAXORDINAL ->
  ltb (fromordinal n) (fromordinal m) = true.
Proof.
  intros Hn Hnm Hm.
  assert (H : forall j : nat,
             n + 1 + Z.of_nat j <= _MAXORDINAL ->
             ltb (fromordinal n) (fromordinal (n + 1 + Z.of_nat j)) = true).
  { induction j as [|j IH]; intros Hj.
    - rewrite Z.add_0_r. apply fromordinal_facts. lia.
    - apply ltb_trans with (fromordinal (n + 1 + Z.of_nat j)).
      + apply IH. lia.
      + replace (n + 1 + Z.of_nat (S j)) with (n + 1 + Z.of_nat j + 1) by lia.
        apply fromordinal_facts. lia. }
  specialize (H (Z.to_nat (m - n - 1))).
  replace (n + 1 + Z.of_nat (Z.to_nat (m - n - 1))) with m in H by lia.
  apply H. lia.
Qed.

Lemma ltb_toordinal a b :
  valid a -> valid b -> ltb a b = (toordinal a <? toordinal b).
Proof.
  intros Ha Hb.
  pose proof (toordinal_range a Ha) as Ra. pose proof (toordinal_range b Hb) as Rb.
  destruct (Z.ltb_spec (toordinal a) (toordinal b)) as [L|L].
  - rewrite <- (fromordinal_toordinal a Ha), <- (fromordinal_toordinal b Hb).
    apply fromordinal_lt; lia.
  - destruct (Z.eq_dec (toordinal a) (toordinal b)) as [E|E].
    + apply toordinal_inj in E; auto. subst. apply ltb_irrefl.
    + apply ltb_asym.
      rewrite <- (fromordinal_toordinal a Ha), <- (fromordinal_toordinal b Hb).
      apply fromordinal_lt; lia.
Qed.

Lemma leb_toordinal a b :
  valid a -> valid b -> leb a b = (toordinal a <=? toordinal b).
Proof.
  intros Ha Hb. unfold leb. rewrite ltb_toordinal by assumption.
  destruct (Z.ltb_spec (toordinal a) (toordinal b)) as [L|L]; cbn [orb].
  - symmetry. apply Z.leb_le. lia.
  - destruct (eqb a b) eqn:E.
    + apply eqb_eq in E. subst. symmetry. apply Z.leb_le. lia.
    + symmetry. apply Z.leb_gt.
      destruct (Z.eq_dec (toordinal a) (toordinal b)) as [E'|E']; [|lia].
      apply toordinal_inj in E'; auto. apply eqb_eq in E'. congruence.
Qed.

Lemma min_valid a b : valid a -> valid b -> valid (min a b).
Proof. intros Ha Hb. unfold min. now destruct (ltb b a). Qed.

Lemma min_toordinal a b :
  valid a -> valid b -> toordinal (min a b) = Z.min (toordinal a) (toordinal b).
Proof.
  intros Ha Hb. unfold min. rewrite ltb_toordinal by assumption.
  destruct (Z.ltb_spec (toordinal b) (toordinal a)); lia.
Qed.

(** ** Adding days *)

Lemma add_ok d n :
  valid d -> 1 <= toordinal d + n <= _MAXORDINAL ->
  exists d', add d n = Ok d' /\ valid d' /\ toordinal d' = toordinal d + n.
Proof.
  intros Hd Hn. unfold add. cbv zeta.
  replace ((0 <? toordinal d + n) && (toordinal d + n <=? _MAXORDINAL)) with true
    by (symmetry; apply andb_true_iff; rewrite Z.ltb_lt, Z.leb_le; lia).
  eexists. split; [reflexivity|].
  split; [apply fromordinal_valid | apply toordinal_fromordinal]; lia.
Qed.

Lemma add_Ok_inv d n d' :
  valid d -> add d n = Ok d' ->
  valid d' /\ toordinal d' = toordinal d + n /\
  1 <= toordinal d + n <= _MAXORDINAL.
Proof.
  intros Hd. unfold add. cbv zeta.
  destruct ((0 <? toordinal d + n) && (toordinal d + n <=? _MAXORDINAL)) eqn:E;
    [|discriminate].
  apply andb_true_iff in E. rewrite Z.ltb_lt, Z.leb_le in E.
  intros [= <-].
  split; [apply fromordinal_valid; lia|].
  split; [apply toordinal_fromordinal|]; lia.
Qed.

Lemma add_overflow d n :
  ~ (1 <= toordinal d + n <= _MAXORDINAL) ->
  add d n = Raise (OverflowError "date value out of range").
Proof.
  intros Hn. unfold add. cbv zeta.
  destruct ((0 <? toordinal d + n) && (toordinal d + n <=? _MAXORDINAL)) eqn:E;
    [|reflexivity].
  apply andb_true_iff in E. rewrite Z.ltb_lt, Z.leb_le in E. lia.
Qed.

(** ** Months and years *)

Lemma year_length y :
  1 <= y <= 9999 ->
  _days_before_year (y + 1) =
  _days_before_year y + 365 + (if _is_leap y then 1 else 0).
Proof.
  intros Hy.
  pose proof (check_range_sound year_ok 14 0 year_ok_all y ltac:(simpl; lia)) as H.
  unfold year_ok in H. now apply Z.eqb_eq in H.
Qed.

Lemma month_cases m :
  1 <= m <= 12 ->
  m = 1 \/ m = 2 \/ m = 3 \/ m = 4 \/ m = 5 \/ m = 6 \/ m = 7 \/
  m = 8 \/ m = 9 \/ m = 10 \/ m = 11 \/ m = 12.
Proof. lia. Qed.

Lemma _days_in_month_bounds y m :
  1 <= m <= 12 -> 28 <= _days_in_month y m <= 31.
Proof.
  intros Hm. unfold _days_in_month.
  destruct ((m =? 2) && _is_leap y); [lia|].
  destruct (month_cases m Hm) as [H|H]; repeat (destruct H as [-> | H]; [simpl; lia|]);
    subst; simpl; lia.
Qed.

Lemma _days_before_month_succ y m :
  1 <= m <= 11 ->
  _days_before_month y (m + 1) = _days_before_month y m + _days_in_month y m.
Proof.
  intros Hm. unfold _days_before_month, _days_in_month.
  assert (Hc : m = 1 \/ m = 2 \/ m = 3 \/ m = 4 \/ m = 5 \/ m = 6 \/ m = 7 \/
               m = 8 \/ m = 9 \/ m = 10 \/ m = 11) by lia.
  repeat (destruct Hc as [-> | Hc]; [destruct (_is_leap y); reflexivity|]).
  subst. destruct (_is_leap y); reflexivity.
Qed.

Lemma _days_before_month_december y :
  _days_before_month y 12 + _days_in_month y 12 =
  365 + (if _is_leap y then 1 else 0).
Proof.
  unfold _days_before_month, _days_in_month.
  destruct (_is_leap y); reflexivity.
Qed.

(** * The month end *)

Lemma valid_fields d :
  valid d ->
  1 <= year d <= 9999 /\ 1 <= month d <= 12 /\
  1 <= day d <= _days_in_month (year d) (month d).
Proof. intros H. now apply check_date_fields_iff. Qed.

Lemma last_of_month_valid d : valid d -> valid (last_of_month d).
Proof.
  intros H. apply valid_fields in H. unfold valid, last_of_month.
  cbn [year month day]. apply check_date_fields_iff.
  pose proof (_days_in_month_bounds (year d) (month d)). lia.
Qed.

Lemma last_of_month_toordinal d :
  valid d -> toordinal d <= toordinal (last_of_month d).
Proof.
  intros H. apply valid_fields in H. unfold toordinal, last_of_month, _ymd2ord.
  cbn [year month day]. lia.
Qed.

Lemma new_Ok y m d :
  check_date_fields y m d = true -> PyDate.new y m d = Ok (mkdate y m d).
Proof.
  intros H. apply check_date_fields_iff in H. unfold PyDate.new, MINYEAR, MAXYEAR.
  replace ((1 <=? y) && (y <=? 9999)) with true
    by (symmetry; apply andb_true_iff; rewrite !Z.leb_le; lia).
  replace ((1 <=? m) && (m <=? 12)) with true
    by (symmetry; apply andb_true_iff; rewrite !Z.leb_le; lia).
  replace ((1 <=? d) && (d <=? _days_in_month y m)) with true
    by (symmetry; apply andb_true_iff; rewrite !Z.leb_le; lia).
  reflexivity.
Qed.

Lemma first_of_month_valid y m :
  1 <= y <= 9999 -> 1 <= m <= 12 -> check_date_fields y m 1 = true.
Proof.
  intros Hy Hm. apply check_date_fields_iff.
  pose proof (_days_in_month_bounds y m Hm). lia.
Qed.

Lemma month_end_eq d :
  valid d ->
  month_end d =
  if (year d =? 9999) && (month d =? 12)
  then Raise (ValueError "year is out of range")
  else Ok (last_of_month d).
Proof.
  intros Hv. pose proof (valid_fields d Hv) as (Hy & Hm & Hd).
  pose proof (last_of_month_valid d Hv) as Hl.
  pose proof (toordinal_facts _ Hl) as [Hr Hf].
  unfold month_end.
  destruct (Z.eqb_spec (month d) 12) as [E12|N12].
  - destruct (Z.eqb_spec (year d) 9999) as [E|N]; cbn [andb].
    + rewrite E. reflexivity.
    + rewrite new_Ok by (apply first_of_month_valid; lia).
      cbn [bind_outcome]. change (timedelta 1) with (Ok (A:=Z) 1).
      cbn [bind_outcome]. unfold PyDate.sub.
      change (timedelta (- (1))) with (Ok (A:=Z) (-1)). cbn [bind_outcome].
      assert (Ho : toordinal (mkdate (year d + 1) 1 1) + -1
                   = toordinal (last_of_month d)).
      { unfold toordinal, last_of_month, _ymd2ord. cbn [year month day].
        rewrite year_length by lia. rewrite E12.
        pose proof (_days_before_month_december (year d)).
        unfold _days_before_month at 1.
        change (_DAYS_BEFORE_MONTH 1) with 0. change (2 <? 1) with false.
        cbn [andb]. destruct (_is_leap (year d)); lia. }
      unfold add. cbv zeta. rewrite Ho.
      replace ((0 <? toordinal (last_of_month d)) &&
               (toordinal (last_of_month d) <=? _MAXORDINAL)) with true
        by (symmetry; apply andb_true_iff; rewrite Z.ltb_lt, Z.leb_le; lia).
      now rewrite Hf.
  - rewrite andb_false_r.
    rewrite new_Ok by (apply first_of_month_valid; lia).
    cbn [bind_outcome]. change (timedelta 1) with (Ok (A:=Z) 1).
    cbn [bind_outcome]. unfold PyDate.sub.
    change (timedelta (- (1))) with (Ok (A:=Z) (-1)). cbn [bind_outcome].
    assert (Ho : toordinal (mkdate (year d) (month d + 1) 1) + -1
                 = toordinal (last_of_month d)).
    { unfold toordinal, last_of_month, _ymd2ord. cbn [year month day].
      rewrite _days_before_month_succ by lia. lia. }
    unfold add. cbv zeta. rewrite Ho.
    replace ((0 <? toordinal (last_of_month d)) &&
             (toordinal (last_of_month d) <=? _MAXORDINAL)) with true
      by (symmetry; apply andb_true_iff; rewrite Z.ltb_lt, Z.leb_le; lia).
    now rewrite Hf.
Qed.

(** * The splitter *)

Lemma ltb_false_iff a b :
  ltb a b = false <->
  ~ (year a < year b \/
     (year a = year b /\
      (month a < month b \/ (month a = month b /\ day a < day b)))).
Proof. rewrite <- ltb_iff. now destruct (ltb a b). Qed.

Lemma between_same_month a x b :
  valid a -> valid x -> valid b ->
  same_month a b -> toordinal a <= toordinal x <= toordinal b ->
  same_month a x.
Proof.
  intros Ha Hx Hb [Hy Hm] Hord.
  assert (L1 : ltb x a = false)
    by (rewrite ltb_toordinal by assumption; apply Z.ltb_ge; lia).
  assert (L2 : ltb b x = false)
    by (rewrite ltb_toordinal by assumption; apply Z.ltb_ge; lia).
  apply ltb_false_iff in L1, L2. unfold same_month. lia.
Qed.

Lemma month_end_Ok d me :
  valid d -> month_end d = Ok me ->
  me = last_of_month d /\ valid me /\ same_month d me /\
  toordinal d <= toordinal me.
Proof.
  intros Hv H. rewrite month_end_eq in H by assumption.
  destruct ((year d =? 9999) && (month d =? 12)); [discriminate|].
  injection H as <-.
  split; [reflexivity|]. split; [now apply last_of_month_valid|].
  split; [split; reflexivity | now apply last_of_month_toordinal].
Qed.

Lemma month_end_before_december_9999 d :
  valid d -> ltb d (mkdate 9999 12 1) = true ->
  month_end d = Ok (last_of_month d).
Proof.
  intros Hv Hlt. rewrite month_end_eq by assumption.
  apply ltb_iff in Hlt. cbn [year month day] in Hlt.
  apply valid_fields in Hv.
  destruct (Z.eqb_spec (year d) 9999), (Z.eqb_spec (month d) 12);
    cbn [andb]; try reflexivity; lia.
Qed.

Lemma timedelta_Ok n : Z.abs n <= 999999999 -> timedelta n = Ok n.
Proof.
  intros H. unfold timedelta.
  now replace (999999999 <? Z.abs n) with false by (symmetry; apply Z.ltb_ge; lia).
Qed.

Lemma timedelta_Ok_inv n m : timedelta n = Ok m -> m = n.
Proof. unfold timedelta. destruct (999999999 <? Z.abs n); congruence. Qed.

(** What one turn of the loop writes. *)
Lemma loop_turn_facts e md a b next :
  valid a -> valid e -> 1 <= md -> toordinal a <= toordinal e ->
  loop_turn e md a b next ->
  valid b /\ valid next /\
  toordinal b =
    Z.min (Z.min (toordinal (last_of_month a)) (toordinal e)) (toordinal a + (md - 1)) /\
  toordinal a <= toordinal b <= toordinal e /\
  toordinal next = toordinal b + 1 /\
  same_month a b.
Proof.
  intros Ha He Hmd Hae (me & mbd & Hme & _ & Hadd & -> & Hnext).
  destruct (month_end_Ok a me Ha Hme) as (-> & Hvme & Hsm & Hle).
  destruct (add_Ok_inv a _ mbd Ha Hadd) as (Hvm & Hom & _).
  set (b := PyDate.min (PyDate.min (last_of_month a) e) mbd) in *.
  assert (Hvb : valid b) by (unfold b; auto using min_valid).
  assert (Hob : toordinal b =
                Z.min (Z.min (toordinal (last_of_month a)) (toordinal e))
                  (toordinal a + (md - 1))).
  { unfold b. rewrite !min_toordinal by auto using min_valid. now rewrite Hom. }
  destruct (add_Ok_inv b _ next Hvb Hnext) as (Hvn & Hon & _).
  repeat split; try assumption; try lia.
  - apply (between_same_month a b (last_of_month a)); auto. lia.
  - apply (between_same_month a b (last_of_month a)); auto. lia.
Qed.

Lemma split_loop_S fuel cur e md acc :
  split_loop (S fuel) cur e md acc =
  if leb cur e then
    me <-- month_end cur ;;
    delta <-- timedelta (md - 1) ;;
    max_by_days <-- PyDate.add cur delta ;;
    one <-- timedelta 1 ;;
    cur' <-- PyDate.add (PyDate.min (PyDate.min me e) max_by_days) one ;;
    split_loop fuel cur' e md
      (acc ++ [mkChunk (isoformat cur)
                 (isoformat (PyDate.min (PyDate.min me e) max_by_days))])%list
  else Ok acc.
Proof. reflexivity. Qed.

Lemma split_loop_Ok e md (He : valid e) (Hmd : 1 <= md) :
  forall fuel cur acc res,
    valid cur -> toordinal cur <= toordinal e + 1 ->
    split_loop fuel cur e md acc = Ok res ->
    exists ivs,
      res = (acc ++ map chunk_of ivs)%list /\
      chain e md (toordinal cur) (toordinal e) ivs.
Proof.
  induction fuel as [|fuel IH]; intros cur acc res Hc Hle H; [discriminate|].
  cbn [split_loop] in H.
  rewrite leb_toordinal in H by assumption.
  destruct (Z.leb_spec (toordinal cur) (toordinal e)) as [L|L].
  - destruct (month_end cur) as [me| |] eqn:Hme; cbn [bind_outcome] in H;
      try discriminate.
    destruct (timedelta (md - 1)) as [delta| |] eqn:Htd; cbn [bind_outcome] in H;
      try discriminate.
    apply timedelta_Ok_inv in Htd as Hd. subst delta.
    destruct (PyDate.add cur (md - 1)) as [mbd| |] eqn:Hadd;
      cbn [bind_outcome] in H; try discriminate.
    change (timedelta 1) with (Ok (A:=Z) 1) in H. cbn [bind_outcome] in H.
    set (b := PyDate.min (PyDate.min me e) mbd) in *.
    destruct (PyDate.add b 1) as [next| |] eqn:Hnext; cbn [bind_outcome] in H;
      try discriminate.
    assert (Hturn : loop_turn e md cur b next)
      by (exists me, mbd; repeat split; assumption).
    destruct (loop_turn_facts e md cur b next Hc He Hmd L Hturn)
      as (Hvb & Hvn & Hob & Hrange & Hon & Hsm).
    destruct (IH next _ res Hvn ltac:(lia) H) as (ivs & -> & Hchain).
    exists ((cur, b) :: ivs). split.
    + rewrite <- app_assoc. reflexivity.
    + cbn [chain]. rewrite <- Hon.
      repeat split; try assumption; try lia. now exists next.
  - injection H as <-. exists []. split.
    + now rewrite app_nil_r.
    + cbn [chain]. lia.
Qed.

Lemma split_loop_in_range e md (He : valid e) (Hmd : 1 <= md)
    (Hr : in_date_range e md) :
  forall n cur acc,
    valid cur -> toordinal cur <= toordinal e + 1 ->
    (Z.to_nat (toordinal e + 1 - toordinal cur) <= n)%nat ->
    exists ivs,
      split_loop (S n) cur e md acc = Ok (acc ++ map chunk_of ivs)%list /\
      chain e md (toordinal cur) (toordinal e) ivs.
Proof.
  destruct Hr as [Hdec Hmax].
  assert (Hedec : toordinal e < toordinal (mkdate 9999 12 1)).
  { rewrite ltb_toordinal in Hdec by (assumption || reflexivity).
    now apply Z.ltb_lt. }
  assert (Hemax : toordinal e + 1 <= _MAXORDINAL).
  { change (toordinal (mkdate 9999 12 1)) with 3652029 in Hedec.
    unfold _MAXORDINAL. lia. }
  pose proof (toordinal_range e He) as Re.
  induction n as [|n IH]; intros cur acc Hc Hle Hn.
  - exists []. cbn [split_loop]. rewrite leb_toordinal by assumption.
    replace (toordinal cur <=? toordinal e) with false
      by (symmetry; apply Z.leb_gt; lia).
    split; [now rewrite app_nil_r | cbn [chain]; lia].
  - rewrite split_loop_S, leb_toordinal by assumption.
    destruct (Z.leb_spec (toordinal cur) (toordinal e)) as [L|L].
    + pose proof (toordinal_range cur Hc) as Rc.
      assert (Hcdec : ltb cur (mkdate 9999 12 1) = true).
      { rewrite ltb_toordinal by (assumption || reflexivity).
        apply Z.ltb_lt. lia. }
      rewrite (month_end_before_december_9999 cur Hc Hcdec). cbn [bind_outcome].
      rewrite timedelta_Ok by (unfold _MAXORDINAL in *; lia). cbn [bind_outcome].
      destruct (add_ok cur (md - 1) Hc ltac:(lia)) as (mbd & Hadd & Hvm & Hom).
      rewrite Hadd. cbn [bind_outcome].
      change (timedelta 1) with (Ok (A:=Z) 1). cbn [bind_outcome].
      set (b := PyDate.min (PyDate.min (last_of_month cur) e) mbd).
      assert (Hvb : valid b)
        by (unfold b; auto using min_valid, last_of_month_valid).
      assert (Hob : toordinal b <= toordinal e).
      { unfold b. rewrite !min_toordinal
          by auto using min_valid, last_of_month_valid. lia. }
      pose proof (toordinal_range b Hvb) as Rb.
      destruct (add_ok b 1 Hvb ltac:(lia)) as (next & Hnext & Hvn & Hon).
      rewrite Hnext. cbn [bind_outcome].
      assert (Hturn : loop_turn e md cur b next).
      { exists (last_of_month cur), mbd. repeat split; try assumption.
        - now apply month_end_before_december_9999.
        - apply timedelta_Ok. unfold _MAXORDINAL in *. lia. }
      destruct (loop_turn_facts e md cur b next Hc He Hmd L Hturn)
        as (_ & _ & _ & Hrange & _ & _).
      destruct (IH next (acc ++ [mkChunk (isoformat cur) (isoformat b)])%list
                  Hvn ltac:(lia) ltac:(lia)) as (ivs & Hrun & Hchain).
      exists ((cur, b) :: ivs). split.
      * rewrite Hrun, <- app_assoc. reflexivity.
      * cbn [chain]. rewrite <- Hon.
        repeat split; try assumption; try lia. now exists next.
    + exists []. split; [now rewrite app_nil_r | cbn [chain]; lia].
Qed.

(** * The text of a date reads back as the date *)

Lemma padded_ok_year : check_range (padded_ok 4 9999) 14 0 = true.
Proof. vm_cast_no_check (eq_refl true). Qed.

Lemma padded_ok_month_day : check_range (padded_ok 2 31) 5 0 = true.
Proof. vm_cast_no_check (eq_refl true). Qed.

Lemma padded_facts width hi k z :
  check_range (padded_ok width hi) k 0 = true ->
  hi < 2 ^ Z.of_nat k -> 0 <= z <= hi ->
  String.length (zero_padded width z) = width /\
  parse_digits (zero_padded width z) = Some z.
Proof.
  intros Hall Hk Hz.
  pose proof (check_range_sound _ k 0 Hall z ltac:(lia)) as H.
  unfold padded_ok in H.
  replace ((0 <=? z) && (z <=? hi)) with true in H
    by (symmetry; apply andb_true_iff; rewrite !Z.leb_le; lia).
  cbn [negb orb] in H. cbv zeta in H. apply andb_true_iff in H.
  destruct H as [Hl Hp]. apply Nat.eqb_eq in Hl. split; [assumption|].
  destruct (parse_digits (zero_padded width z)) as [z'|]; [|discriminate].
  apply Z.eqb_eq in Hp. now subst.
Qed.

Lemma length_2 s :
  String.length s = 2%nat -> exists c0 c1, s = String c0 (String c1 EmptyString).
Proof.
  destruct s as [|c0 [|c1 [|c2 s]]]; try discriminate. intros _. now exists c0, c1.
Qed.

Lemma length_4 s :
  String.length s = 4%nat ->
  exists c0 c1 c2 c3,
    s = String c0 (String c1 (String c2 (String c3 EmptyString))).
Proof.
  destruct s as [|c0 [|c1 [|c2 [|c3 [|c4 s]]]]]; try discriminate.
  intros _. now exists c0, c1, c2, c3.
Qed.

Lemma fromisoformat_isoformat d :
  valid d -> fromisoformat (isoformat d) = Ok d.
Proof.
  intros Hv. pose proof (valid_fields d Hv) as (Hy & Hm & Hd).
  pose proof (_days_in_month_bounds (year d) (month d) Hm) as Hdim.
  destruct (padded_facts 4 9999 14 (year d) padded_ok_year ltac:(simpl; lia) ltac:(lia))
    as [Ly Py].
  destruct (padded_facts 2 31 5 (month d) padded_ok_month_day ltac:(simpl; lia) ltac:(lia))
    as [Lm Pm].
  destruct (padded_facts 2 31 5 (day d) padded_ok_month_day ltac:(simpl; lia) ltac:(lia))
    as [Ld Pd].
  unfold isoformat.
  destruct (length_4 _ Ly) as (y0 & y1 & y2 & y3 & Ey).
  destruct (length_2 _ Lm) as (m0 & m1 & Em).
  destruct (length_2 _ Ld) as (d0 & d1 & Ed).
  rewrite Ey, Em, Ed in *.
  unfold fromisoformat.
  cbn [append substring String.length].
  rewrite Py, Pm, Pd.
  cbn [Nat.eqb andb String.eqb Ascii.eqb Bool.eqb].
  destruct d as [y m dd]. cbn [year month day] in *.
  now apply new_Ok.
Qed.

Lemma chunk_dates_chunk_of a b :
  valid a -> valid b -> chunk_dates (chunk_of (a, b)) = Ok (a, b).
Proof.
  intros Ha Hb. unfold chunk_dates, chunk_of. cbn [start_date end_date fst snd].
  now rewrite !fromisoformat_isoformat.
Qed.

(** * What a chain of intervals is *)

Section Chain.

Variables (e : date) (md : Z).

Lemma chain_items ivs :
  forall lo hi, chain e md lo hi ivs ->
  Forall (fun iv =>
            valid (fst iv) /\ valid (snd iv) /\ lo <= toordinal (fst iv) /\
            toordinal (fst iv) <= toordinal (snd iv) <= hi /\
            exists next, loop_turn e md (fst iv) (snd iv) next) ivs.
Proof.
  induction ivs as [|[a b] rest IH]; intros lo hi H; [constructor|].
  cbn [chain] in H. destruct H as (Ha & Hb & Hlo & Hr & Ht & Hrest).
  constructor.
  - cbn [fst snd]. repeat split; try assumption; lia.
  - eapply Forall_impl; [|apply (IH _ _ Hrest)].
    cbn beta. intros iv (H1 & H2 & H3 & H4 & H5).
    repeat split; try assumption; lia.
Qed.

Lemma chain_head s ivs hi :
  valid s -> toordinal s <= hi -> chain e md (toordinal s) hi ivs ->
  exists b rest, ivs = (s, b) :: rest.
Proof.
  intros Hs Hle H. destruct ivs as [|[a b] rest]; cbn [chain] in H; [lia|].
  destruct H as (Ha & _ & Hlo & _).
  apply toordinal_inj in Hlo; auto. subst. now exists b, rest.
Qed.

Lemma chain_last e' ivs :
  valid e' ->
  forall lo, lo <= toordinal e' -> chain e md lo (toordinal e') ivs ->
  exists front a, ivs = (front ++ [(a, e')])%list.
Proof.
  intros He'. induction ivs as [|[a b] rest IH]; intros lo Hle H;
    cbn [chain] in H; [lia|].
  destruct H as (Ha & Hb & Hlo & Hr & _ & Hrest).
  destruct rest as [|iv rest'].
  - cbn [chain] in Hrest. assert (E : toordinal b = toordinal e') by lia.
    apply toordinal_inj in E; auto. subst. now exists [], a.
  - assert (Hle' : toordinal b + 1 <= toordinal e').
    { destruct iv as [a' b']. cbn [chain] in Hrest. lia. }
    destruct (IH _ Hle' Hrest) as (front & a' & E). rewrite E.
    now exists ((a, b) :: front), a'.
Qed.

Lemma chain_contiguous ivs : forall lo hi, chain e md lo hi ivs -> contiguous ivs.
Proof.
  induction ivs as [|[a b] rest IH]; intros lo hi H; [exact I|].
  cbn [chain] in H. destruct H as (Ha & Hb & Hlo & Hr & _ & Hrest).
  destruct rest as [|[a' b'] rest']; [exact I|].
  cbn [contiguous fst snd]. split; [|apply (IH _ _ Hrest)].
  cbn [chain] in Hrest. destruct Hrest as (Ha' & _ & Hlo' & _).
  pose proof (toordinal_range a' Ha').
  destruct (add_ok b 1 Hb ltac:(lia)) as (d' & -> & Hd' & Hod').
  f_equal. apply toordinal_inj; auto. lia.
Qed.

Lemma chain_ordered ivs : forall lo hi, chain e md lo hi ivs -> ordered ivs.
Proof.
  induction ivs as [|[a b] rest IH]; intros lo hi H; [exact I|].
  cbn [chain] in H. destruct H as (Ha & Hb & Hlo & Hr & _ & Hrest).
  assert (Hab : leb a b = true)
    by (rewrite leb_toordinal by assumption; apply Z.leb_le; lia).
  destruct rest as [|[a' b'] rest']; [exact Hab|].
  cbn [ordered fst snd]. split; [exact Hab|]. split; [|apply (IH _ _ Hrest)].
  cbn [chain] in Hrest. destruct Hrest as (Ha' & _ & Hlo' & _).
  rewrite ltb_toordinal by assumption. apply Z.ltb_lt. lia.
Qed.

Lemma chain_count d (Hd : valid d) ivs :
  forall lo hi, lo <= hi + 1 -> chain e md lo hi ivs ->
  List.length (filter (in_interval d) ivs) =
  if (lo <=? toordinal d) && (toordinal d <=? hi) then 1%nat else 0%nat.
Proof.
  induction ivs as [|[a b] rest IH]; intros lo hi Hle H; cbn [chain] in H.
  - subst lo. cbn [filter List.length].
    destruct (Z.leb_spec (hi + 1) (toordinal d)), (Z.leb_spec (toordinal d) hi);
      cbn [andb]; try reflexivity; lia.
  - destruct H as (Ha & Hb & Hlo & Hr & _ & Hrest).
    cbn [filter]. unfold in_interval at 1. cbn [fst snd].
    rewrite !leb_toordinal by assumption.
    specialize (IH (toordinal b + 1) hi ltac:(lia) Hrest). rewrite Hlo.
    destruct (Z.leb_spec lo (toordinal d)), (Z.leb_spec (toordinal d) (toordinal b)),
      (Z.leb_spec (toordinal d) hi), (Z.leb_spec (toordinal b + 1) (toordinal d));
      cbn [andb List.length] in *; try lia.
Qed.

End Chain.

(** * Claims about the splitter *)

Lemma split_chunks_chain fuel s e md chunks :
  valid s -> valid e -> leb s e = true -> 1 <= md ->
  split_into_month_aligned_chunks fuel s e md = Ok chunks ->
  exists ivs, chunks = map chunk_of ivs /\
              chain e md (toordinal s) (toordinal e) ivs.
Proof.
  intros Hs He Hle Hmd H.
  rewrite leb_toordinal in Hle by assumption. apply Z.leb_le in Hle.
  unfold split_into_month_aligned_chunks in H.
  destruct (split_loop_Ok e md He Hmd fuel s [] chunks Hs ltac:(lia) H)
    as (ivs & -> & Hchain).
  now exists ivs.
Qed.

(** The scenarios A, B and C of the design. *)
Example scenario_A :
  split_into_month_aligned_chunks 40 (mkdate 2025 5 1) (mkdate 2025 5 31) 365
  = Ok [mkChunk "2025-05-01" "2025-05-31"].
Proof. reflexivity. Qed.

Example scenario_B :
  split_into_month_aligned_chunks 40 (mkdate 2025 5 15) (mkdate 2025 6 10) 365
  = Ok [mkChunk "2025-05-15" "2025-05-31"; mkChunk "2025-06-01" "2025-06-10"].
Proof. reflexivity. Qed.

Example scenario_C :
  split_into_month_aligned_chunks 40 (mkdate 2025 1 1) (mkdate 2025 1 10) 5
  = Ok [mkChunk "2025-01-01" "2025-01-05"; mkChunk "2025-01-06" "2025-01-10"].
Proof. reflexivity. Qed.

(** C1, as amended: for dates [s <= e] and [max_days >= 1] such that [e] is
    before December 9999 and [max_days - 1] days after [e] is still a date,
    the splitter returns the texts of a list of intervals that is not empty,
    starts at [s], ends at [e], is contiguous and ordered, and in which each
    date of [[s, e]] lies in exactly one interval and no other date in any. *)
Theorem split_partitions_range (s e : date) (max_days : Z) (fuel : nat) :
  valid s -> valid e -> leb s e = true -> 1 <= max_days ->
  in_date_range e max_days ->
  (Z.to_nat (toordinal e - toordinal s + 1) < fuel)%nat ->
  exists ivs,
    split_into_month_aligned_chunks fuel s e max_days = Ok (map chunk_of ivs) /\
    Forall (fun iv => chunk_dates (chunk_of iv) = Ok iv) ivs /\
    ivs <> [] /\
    (exists b rest, ivs = (s, b) :: rest) /\
    (exists front a, ivs = (front ++ [(a, e)])%list) /\
    contiguous ivs /\ ordered ivs /\
    forall d, valid d ->
      List.length (filter (in_interval d) ivs) =
      if leb s d && leb d e then 1%nat else 0%nat.
Proof.
  intros Hs He Hle Hmd Hr Hfuel.
  pose proof Hle as Hle'. rewrite leb_toordinal in Hle' by assumption.
  apply Z.leb_le in Hle'.
  destruct fuel as [|n]; [lia|].
  destruct (split_loop_in_range e max_days He Hmd Hr n s [] Hs ltac:(lia) ltac:(lia))
    as (ivs & Hrun & Hchain).
  exists ivs. split; [exact Hrun|].
  destruct (chain_head e max_days s ivs _ Hs Hle' Hchain) as (b & rest & E).
  split.
  { eapply Forall_impl; [|apply (chain_items _ _ _ _ _ Hchain)].
    intros [a b'] (Ha & Hb & _). now apply chunk_dates_chunk_of. }
  split; [rewrite E; discriminate|].
  split; [now exists b, rest|].
  split; [apply (chain_last e max_days e ivs He _ Hle' Hchain)|].
  split; [apply (chain_contiguous _ _ _ _ _ Hchain)|].
  split; [apply (chain_ordered _ _ _ _ _ Hchain)|].
  intros d Hd.
  rewrite (chain_count e max_days d Hd ivs (toordinal s) (toordinal e)
             ltac:(lia) Hchain).
  now rewrite !leb_toordinal by assumption.
Qed.

Lemma split_partitions_range_witness :
  exists ivs,
    split_into_month_aligned_chunks 40 (mkdate 2025 5 15) (mkdate 2025 6 10) 365
    = Ok (map chunk_of ivs) /\
    Forall (fun iv => chunk_dates (chunk_of iv) = Ok iv) ivs /\
    ivs <> [] /\
    (exists b rest, ivs = (mkdate 2025 5 15, b) :: rest) /\
    (exists front a, ivs = (front ++ [(a, mkdate 2025 6 10)])%list) /\
    contiguous ivs /\ ordered ivs /\
    forall d, valid d ->
      List.length (filter (in_interval d) ivs) =
      if leb (mkdate 2025 5 15) d && leb d (mkdate 2025 6 10) then 1%nat else 0%nat.
Proof.
  apply (split_partitions_range (mkdate 2025 5 15) (mkdate 2025 6 10) 365 40).
  - reflexivity.
  - reflexivity.
  - reflexivity.
  - lia.
  - split; [reflexivity | vm_compute; discriminate].
  - vm_compute. lia.
Defined.

(** C1 as stated fails where a date leaves the range of [date]: in
    December 9999 the month end needs the first day of year 10000, and a
    large [max_days] takes [cur + (max_days - 1)] past 9999-12-31.  The
    splitter raises and returns no chunk. *)
Lemma split_raises_out_of_range :
  (valid (mkdate 9999 12 31) /\
   leb (mkdate 9999 12 31) (mkdate 9999 12 31) = true /\
   split_into_month_aligned_chunks 1 (mkdate 9999 12 31) (mkdate 9999 12 31) 1
   = Raise (ValueError "year is out of range") /\
   ~ exists fuel chunks,
       split_into_month_aligned_chunks fuel (mkdate 9999 12 31) (mkdate 9999 12 31) 1
       = Ok chunks) /\
  (valid (mkdate 2025 1 1) /\ valid (mkdate 2025 1 31) /\
   leb (mkdate 2025 1 1) (mkdate 2025 1 31) = true /\
   split_into_month_aligned_chunks 1 (mkdate 2025 1 1) (mkdate 2025 1 31) 10000000
   = Raise (OverflowError "date value out of range") /\
   ~ exists fuel chunks,
       split_into_month_aligned_chunks fuel (mkdate 2025 1 1) (mkdate 2025 1 31)
         10000000
       = Ok chunks).
Proof.
  split.
  - split; [reflexivity|]. split; [reflexivity|]. split; [reflexivity|].
    intros (fuel & chunks & H). destruct fuel as [|fuel]; [discriminate|].
    unfold split_into_month_aligned_chunks in H. rewrite split_loop_S in H.
    vm_compute in H. discriminate.
  - split; [reflexivity|]. split; [reflexivity|]. split; [reflexivity|].
    split; [reflexivity|].
    intros (fuel & chunks & H). destruct fuel as [|fuel]; [discriminate|].
    unfold split_into_month_aligned_chunks in H. rewrite split_loop_S in H.
    vm_compute in H. discriminate.
Qed.

(** C2: when the splitter returns for [s <= e] and [max_days >= 1], every
    chunk reads back as two dates of the same year and month, and its
    number of days, [end - start + 1], is at most [max_days]. *)
Theorem chunk_in_one_month_within_max_days (fuel : nat) (s e : date)
    (max_days : Z) (chunks : list Chunk) (c : Chunk) :
  valid s -> valid e -> leb s e = true -> 1 <= max_days ->
  split_into_month_aligned_chunks fuel s e max_days = Ok chunks ->
  In c chunks ->
  exists a b,
    chunk_dates c = Ok (a, b) /\ same_month a b /\
    1 <= span_days (a, b) <= max_days.
Proof.
  intros Hs He Hle Hmd Hrun Hin.
  destruct (split_chunks_chain fuel s e max_days chunks Hs He Hle Hmd Hrun)
    as (ivs & -> & Hchain).
  apply in_map_iff in Hin. destruct Hin as ([a b] & <- & Hin).
  pose proof (chain_items _ _ _ _ _ Hchain) as Hall.
  rewrite Forall_forall in Hall. specialize (Hall _ Hin). cbn [fst snd] in Hall.
  destruct Hall as (Ha & Hb & Hlo & Hr & next & Hturn).
  destruct (loop_turn_facts e max_days a b next Ha He Hmd ltac:(lia) Hturn)
    as (_ & _ & Hob & _ & _ & Hsm).
  exists a, b. split; [now apply chunk_dates_chunk_of|].
  split; [exact Hsm|]. unfold span_days. cbn [fst snd]. lia.
Qed.

Lemma chunk_in_one_month_within_max_days_witness :
  exists a b,
    chunk_dates (mkChunk "2025-01-06" "2025-01-10") = Ok (a, b) /\
    same_month a b /\ 1 <= span_days (a, b) <= 5.
Proof.
  apply (chunk_in_one_month_within_max_days 10 (mkdate 2025 1 1) (mkdate 2025 1 10) 5
           [mkChunk "2025-01-01" "2025-01-05"; mkChunk "2025-01-06" "2025-01-10"]).
  - reflexivity.
  - reflexivity.
  - reflexivity.
  - lia.
  - reflexivity.
  - right. left. reflexivity.
Defined.

(** C9: when the splitter returns for [s <= e] and [max_days >= 1], each
    chunk reads back as dates [cs] and [ce], and the splitter run on
    [cs], [ce] and the same [max_days] returns exactly that chunk. *)
Theorem rechunking_a_chunk_returns_it (fuel : nat) (s e : date)
    (max_days : Z) (chunks : list Chunk) (c : Chunk) :
  valid s -> valid e -> leb s e = true -> 1 <= max_days ->
  split_into_month_aligned_chunks fuel s e max_days = Ok chunks ->
  In c chunks ->
  exists cs ce,
    chunk_dates c = Ok (cs, ce) /\
    forall fuel', (2 <= fuel')%nat ->
      split_into_month_aligned_chunks fuel' cs ce max_days = Ok [c].
Proof.
  intros Hs He Hle Hmd Hrun Hin.
  destruct (split_chunks_chain fuel s e max_days chunks Hs He Hle Hmd Hrun)
    as (ivs & -> & Hchain).
  apply in_map_iff in Hin. destruct Hin as ([a b] & <- & Hin).
  pose proof (chain_items _ _ _ _ _ Hchain) as Hall.
  rewrite Forall_forall in Hall. specialize (Hall _ Hin). cbn [fst snd] in Hall.
  destruct Hall as (Ha & Hb & Hlo & Hr & next & Hturn).
  destruct (loop_turn_facts e max_days a b next Ha He Hmd ltac:(lia) Hturn)
    as (_ & Hvn & Hob & _ & Hon & _).
  exists a, b. split; [now apply chunk_dates_chunk_of|].
  intros fuel' Hf. destruct fuel' as [|[|k]]; try lia.
  destruct Hturn as (me & mbd & Hme & Htd & Hadd & Eb & Hnext).
  destruct (month_end_Ok a me Ha Hme) as (Eme & Hvme & _ & _).
  destruct (add_Ok_inv a _ mbd Ha Hadd) as (Hvm & Hom & _).
  unfold split_into_month_aligned_chunks.
  rewrite split_loop_S.
  replace (leb a b) with true
    by (symmetry; rewrite leb_toordinal by assumption; apply Z.leb_le; lia).
  rewrite Hme. cbn [bind_outcome]. rewrite Htd. cbn [bind_outcome].
  rewrite Hadd. cbn [bind_outcome].
  change (timedelta 1) with (Ok (A:=Z) 1). cbn [bind_outcome].
  assert (E : PyDate.min (PyDate.min me b) mbd = b).
  { apply toordinal_inj; auto using min_valid.
    rewrite !min_toordinal by auto using min_valid. subst me. lia. }
  rewrite E, Hnext. cbn [bind_outcome].
  rewrite split_loop_S.
  replace (leb next b) with false
    by (symmetry; rewrite leb_toordinal by assumption; apply Z.leb_gt; lia).
  reflexivity.
Qed.

Lemma rechunking_a_chunk_returns_it_witness :
  exists cs ce,
    chunk_dates (mkChunk "2025-05-15" "2025-05-31") = Ok (cs, ce) /\
    forall fuel', (2 <= fuel')%nat ->
      split_into_month_aligned_chunks fuel' cs ce 365
      = Ok [mkChunk "2025-05-15" "2025-05-31"].
Proof.
  apply (rechunking_a_chunk_returns_it 10 (mkdate 2025 5 15) (mkdate 2025 6 10) 365
           [mkChunk "2025-05-15" "2025-05-31"; mkChunk "2025-06-01" "2025-06-10"]).
  - reflexivity.
  - reflexivity.
  - reflexivity.
  - lia.
  - reflexivity.
  - left. reflexivity.
Defined.

(** * Termination of the splitter *)













(** * The fetch *)

Section Fetch.

Variable E : Env.
Variable query : list (string * string).

Let req : Request := mkRequest API_URL query 30.

Lemma after_requests_0 w : after_requests w req 0 = w.
Proof. unfold after_requests. cbn [repeat]. rewrite app_nil_r. now destruct w. Qed.

Lemma after_requests_S w k :
  after_requests (after_requests w req 1) req k = after_requests w req (S k).
Proof.
  unfold after_requests. cbn [requests_sent uploads repeat].
  now rewrite <- app_assoc.
Qed.

(** One attempt sends one request, uploads nothing, and ends with a value
    or an exception of class [Exception]. *)
Lemma attempt_spec w :
  exists r,
    attempt E query w = (r, after_requests w req 1) /\
    r <> OutOfFuel /\ (forall e, r = Raise e -> is_Exception e = true).
Proof.
  unfold attempt, bind, requests_get, after_requests. cbn [repeat].
  fold req.
  destruct (http E (requests_sent w) req) as [text|r].
  { eexists. split; [reflexivity|]. split; [discriminate|].
    now intros e [= <-]. }
  unfold try_except, response_json.
  destruct (json r) as [body|]; unfold raise, ret.
  2:{ cbn [is_Exception]. eexists. split; [reflexivity|].
      split; [discriminate|]. now intros e [= <-]. }
  assert (Hstatus :
    exists r',
      (let (o, w') :=
         (if 400 <=? status_code r then raise_for_status r else ret tt)
           (mkWorld (requests_sent w ++ [req]) (uploads w)) in
       match o with
       | Ok _ => (Ok body, w')
       | Raise e => (Raise e, w')
       | OutOfFuel => (OutOfFuel, w')
       end) = (r', mkWorld (requests_sent w ++ [req]) (uploads w)) /\
      r' <> OutOfFuel /\ (forall e, r' = Raise e -> is_Exception e = true)).
  { unfold raise_for_status, raise, ret.
    destruct (400 <=? status_code r);
      [match goal with |- context [if ?b then _ else _] => destruct b end|];
      eexists; (split; [reflexivity|]); (split; [discriminate|]);
      intros e [= <-] || intros e [=]; reflexivity. }
  destruct body as [| | | | | |l|items];
    try (destruct Hstatus as (r' & Hr' & Hne & Hex); exists r';
         split; [exact Hr'|]; split; assumption).
  destruct (match dict_get items "success" with
            | PBool false => true | _ => false end).
  { eexists. split; [reflexivity|]. split; [discriminate|]. now intros e [= <-]. }
  destruct (dict_has items "error" && truthy (dict_get items "error")).
  { eexists. split; [reflexivity|]. split; [discriminate|]. now intros e [= <-]. }
  destruct Hstatus as (r' & Hr' & Hne & Hex). exists r'.
  split; [exact Hr'|]. split; assumption.
Qed.

Lemma attempt_world w : snd (attempt E query w) = after_requests w req 1.
Proof. destruct (attempt_spec w) as (r & -> & _). reflexivity. Qed.

Lemma retry_loop_spec sd ed :
  forall attempts last_exc w,
  exists k res,
    retry_loop E attempts sd ed query last_exc w = (res, after_requests w req k) /\
    (k <= List.length attempts)%nat /\
    ((exists body, res = Ok body /\ (1 <= k)%nat /\
                   fst (attempt E query (after_requests w req (k - 1))) = Ok body) \/
     (k = List.length attempts /\
      exists cause, res = Raise (fetch_failed sd ed cause) /\
                    last_cause E query attempts last_exc w cause)).
Proof.
  induction attempts as [|a rest IH]; intros last_exc w.
  - exists 0%nat. eexists. rewrite after_requests_0. split; [reflexivity|].
    split; [cbn; lia|]. right. split; [reflexivity|].
    eexists. split; reflexivity.
  - cbn [retry_loop].
    destruct (attempt_spec w) as (r & Hr & Hne & Hex).
    rewrite Hr. destruct r as [body|e|]; [| |contradiction].
    + exists 1%nat, (Ok body). split; [reflexivity|]. split; [cbn; lia|].
      left. exists body. split; [reflexivity|]. split; [lia|].
      cbn [Nat.sub]. now rewrite after_requests_0, Hr.
    + rewrite (Hex e eq_refl).
      destruct (IH (Some e) (after_requests w req 1)) as (k & res & Hrun & Hk & Hres).
      rewrite after_requests_S in Hrun.
      exists (S k), res. split; [exact Hrun|]. split; [cbn; lia|].
      destruct Hres as [(body & -> & Hk1 & Hbody) | (-> & cause & -> & Hcause)].
      * left. exists body. split; [reflexivity|]. split; [lia|].
        replace (S k - 1)%nat with (S (k - 1)) by lia.
        now rewrite <- after_requests_S.
      * right. split; [reflexivity|]. exists cause. split; [reflexivity|].
        unfold last_cause at 1. cbn [List.length]. fold req.
        replace (S (List.length rest) - 1)%nat with (List.length rest) by lia.
        destruct rest as [|a' rest'].
        -- cbn [last_cause] in Hcause. subst cause. exists e.
           split; [reflexivity|]. cbn [List.length].
           now rewrite after_requests_0, Hr.
        -- cbn [last_cause] in Hcause. fold req in Hcause.
           destruct Hcause as (ex & -> & Hlast).
           exists ex. split; [reflexivity|].
           rewrite after_requests_S in Hlast.
           cbn [List.length] in *.
           now replace (S (S (List.length rest') - 1)) with (S (List.length rest'))
             in Hlast by lia.
Qed.

(** An attempt the claims call failed raises, when the status is below 600. *)
Lemma failed_attempt_raises w :
  failed_attempt (http E (requests_sent w) req) = true ->
  (forall r, http E (requests_sent w) req = GetReturns r -> status_code r < 600) ->
  exists ex, fst (attempt E query w) = Raise ex.
Proof.
  intros Hf Hs.
  unfold attempt, bind, requests_get. fold req.
  destruct (http E (requests_sent w) req) as [text|r]; [eexists; reflexivity|].
  specialize (Hs r eq_refl). unfold failed_attempt in Hf.
  unfold try_except, response_json.
  destruct (json r) as [body|]; unfold raise, ret; [|eexists; reflexivity].
  assert (Hstatus : (400 <=? status_code r) = true ->
    forall w', (if 400 <=? status_code r then raise_for_status r else ret tt) w'
               = (Raise (HTTPError (status_code r)), w')).
  { intros H4 w'. rewrite H4. unfold raise_for_status, raise.
    apply Z.leb_le in H4.
    destruct (Z.leb_spec 400 (status_code r)), (Z.ltb_spec (status_code r) 500),
      (Z.leb_spec 500 (status_code r)), (Z.ltb_spec (status_code r) 600);
      cbn [andb orb]; try reflexivity; lia. }
  destruct body as [| | | | | |l|items];
    try (rewrite (Hstatus Hf); eexists; reflexivity).
  unfold nonempty_field in Hf.
  destruct (match dict_get items "success" with
            | PBool false => true | _ => false end); [eexists; reflexivity|].
  destruct (dict_has items "error" && truthy (dict_get items "error"));
    [eexists; reflexivity|].
  cbn [orb] in Hf. rewrite (Hstatus Hf). eexists; reflexivity.
Qed.

(** Any other attempt returns the body. *)
Lemma good_attempt_returns w :
  failed_attempt (http E (requests_sent w) req) = false ->
  exists r body,
    http E (requests_sent w) req = GetReturns r /\ json r = Some body /\
    fst (attempt E query w) = Ok body.
Proof.
  intros Hf.
  unfold attempt, bind, requests_get. fold req.
  destruct (http E (requests_sent w) req) as [text|r]; [discriminate|].
  unfold failed_attempt in Hf. unfold try_except, response_json.
  destruct (json r) as [body|] eqn:Hj; [|discriminate].
  exists r, body. split; [reflexivity|]. split; [exact Hj|].
  unfold raise, ret.
  destruct body as [| | | | | |l|items]; try (now rewrite Hf).
  unfold nonempty_field in Hf. apply orb_false_iff in Hf. destruct Hf as [Hf H4].
  apply orb_false_iff in Hf. destruct Hf as [H1 H2].
  now rewrite H1, H2, H4.
Qed.

End Fetch.

(** [call_timeframe] sends one request per attempt, one to three in all and
    nothing else, and either returns the body of its last attempt or, after
    three failed attempts, raises the error that carries the exception of the
    third. *)
Lemma call_timeframe_spec E sd ed currencies access_key w :
  let query := query_of sd ed currencies access_key in
  let req := mkRequest API_URL query 30 in
  exists k res,
    call_timeframe E sd ed currencies access_key w = (res, after_requests w req k) /\
    (1 <= k <= 3)%nat /\
    ((exists body, res = Ok body /\
                   fst (attempt E query (after_requests w req (k - 1))) = Ok body) \/
     (k = 3%nat /\
      exists ex, res = Raise (fetch_failed sd ed (FExn ex)) /\
                 fst (attempt E query (after_requests w req 2)) = Raise ex)).
Proof.
  intros query req.
  destruct (retry_loop_spec E query sd ed (range 1 (RETRY_COUNT + 1)) None w)
    as (k & res & Hrun & Hk & Hres).
  exists k, res. split; [exact Hrun|].
  change (List.length (range 1 (RETRY_COUNT + 1))) with 3%nat in *.
  destruct Hres as [(body & -> & Hk1 & Hb) | (-> & cause & -> & Hc)].
  - split; [lia|]. left. now exists body.
  - split; [lia|]. right. split; [reflexivity|].
    destruct Hc as (ex & -> & Hlast). now exists ex.
Qed.

(** Three failed attempts in a row, none with a status of 600 or more, end
    in the error. *)
Lemma call_timeframe_exhausts E sd ed currencies access_key w :
  let query := query_of sd ed currencies access_key in
  let req := mkRequest API_URL query 30 in
  (forall k, (k < 3)%nat ->
     failed_attempt (http E (requests_sent w ++ repeat req k) req) = true /\
     forall r, http E (requests_sent w ++ repeat req k) req = GetReturns r ->
               status_code r < 600) ->
  exists ex,
    call_timeframe E sd ed currencies access_key w
    = (Raise (fetch_failed sd ed (FExn ex)), after_requests w req 3) /\
    fst (attempt E query (after_requests w req 2)) = Raise ex.
Proof.
  intros query req Hfail.
  destruct (call_timeframe_spec E sd ed currencies access_key w)
    as (k & res & Hrun & Hk & Hres).
  fold query req in Hrun, Hres.
  destruct Hres as [(body & -> & Hb) | (-> & ex & -> & Hlast)].
  - exfalso.
    destruct (Hfail (k - 1)%nat ltac:(lia)) as [Hf Hs].
    destruct (failed_attempt_raises E query (after_requests w req (k - 1)) Hf Hs)
      as (ex & Hex).
    fold req in Hb. congruence.
  - now exists ex.
Qed.

(** * The upload *)

Lemma upload_guard E obj s3_uri w :
  script_path s3_uri = true ->
  upload_json_to_s3 E obj s3_uri w =
  (Raise (if startswith s3_uri "s3://" then write_rejected
          else ValueError "S3 path must start with s3://"), w).
Proof.
  intros H. unfold upload_json_to_s3. unfold script_path in H.
  destruct (startswith s3_uri "s3://"); cbn [negb]; [|reflexivity].
  now rewrite H.
Qed.

(** * The loop over the chunks *)

Section Loop.

Variables (E : Env) (s3_output : string) (currencies : list string)
  (access_key : option string).

Let loop := chunk_loop E s3_output currencies access_key.

Lemma chunk_loop_cons c rest any w :
  loop (c :: rest) any w =
  match call_timeframe E (start_date c) (end_date c) currencies access_key w with
  | (Ok data, w1) =>
      match validate data with
      | Skippable _ => loop rest any w1
      | Usable =>
          match fromisoformat (start_date c) with
          | Ok start_dt =>
              match upload_json_to_s3 E data (s3_target_of s3_output c start_dt) w1
              with
              | (Ok _, w2) => loop rest true w2
              | (Raise e, w2) => (Raise e, w2)
              | (OutOfFuel, w2) => (OutOfFuel, w2)
              end
          | Raise e => (Raise e, w1)
          | OutOfFuel => (OutOfFuel, w1)
          end
      end
  | (Raise e, w1) => (Raise e, w1)
  | (OutOfFuel, w1) => (OutOfFuel, w1)
  end.
Proof.
  unfold loop. cbn [chunk_loop]. unfold bind at 1.
  destruct (call_timeframe E (start_date c) (end_date c) currencies access_key w)
    as [[data|e|] w1]; try reflexivity.
  destruct (validate data); [|reflexivity].
  unfold bind, lift.
  destruct (fromisoformat (start_date c)); reflexivity.
Qed.

Lemma chunk_loop_app pre rest :
  forall any w,
    loop (pre ++ rest) any w =
    match loop pre any w with
    | (Ok any1, w1) => loop rest any1 w1
    | (Raise e, w1) => (Raise e, w1)
    | (OutOfFuel, w1) => (OutOfFuel, w1)
    end.
Proof.
  induction pre as [|c pre IH]; intros any w; [reflexivity|].
  rewrite <- app_comm_cons, !chunk_loop_cons.
  destruct (call_timeframe E (start_date c) (end_date c) currencies access_key w)
    as [[data|e|] w1]; try reflexivity.
  destruct (validate data); [|apply IH].
  destruct (fromisoformat (start_date c)); try reflexivity.
  destruct (upload_json_to_s3 E data _ w1) as [[[]|e|] w2]; try reflexivity.
  apply IH.
Qed.

Lemma chunk_loop_true chunks :
  forall w any w', loop chunks true w = (Ok any, w') -> any = true.
Proof.
  induction chunks as [|c rest IH]; intros w any w' H.
  - now injection H as <- _.
  - rewrite chunk_loop_cons in H.
    destruct (call_timeframe E (start_date c) (end_date c) currencies access_key w)
      as [[data|e|] w1]; try discriminate.
    destruct (validate data); [|now apply IH in H].
    destruct (fromisoformat (start_date c)); try discriminate.
    destruct (upload_json_to_s3 E data _ w1) as [[[]|e|] w2]; try discriminate.
    now apply IH in H.
Qed.

(** When the loop ends with [any_uploaded] false, [upload_file] was never
    called. *)
Lemma chunk_loop_false chunks :
  forall w any w',
    loop chunks any w = (Ok false, w') -> any = false /\ uploads w' = uploads w.
Proof.
  induction chunks as [|c rest IH]; intros w any w' H.
  - injection H as -> <-. now split.
  - rewrite chunk_loop_cons in H.
    destruct (call_timeframe_spec E (start_date c) (end_date c) currencies
                access_key w) as (k & res & Hrun & _).
    rewrite Hrun in H. destruct res as [data|e|]; try discriminate.
    destruct (validate data).
    + destruct (fromisoformat (start_date c)); try discriminate.
      destruct (upload_json_to_s3 E data _ _) as [[[]|e|] w2]; try discriminate.
      apply chunk_loop_true in H. discriminate.
    + apply IH in H. exact H.
Qed.

End Loop.

(** * The run *)

Lemma main_no_output E fuel args w :
  S3_OUTPUT args = None \/ S3_OUTPUT args = Some EmptyString ->
  main E fuel args w = (Raise (SystemExit 2), w).
Proof. unfold main. now intros [-> | ->]. Qed.

Lemma main_with_output E fuel args w s3_output :
  S3_OUTPUT args = Some s3_output -> s3_output <> EmptyString ->
  main E fuel args w =
  match split_into_month_aligned_chunks fuel (fst (run_interval args))
          (snd (run_interval args)) (MAX_DAYS_PER_CALL args) with
  | Ok chunks =>
      match chunk_loop E s3_output (CURRENCIES args) (ACCESS_KEY args) chunks
              false w with
      | (Ok any_uploaded, w') =>
          if negb any_uploaded then (Raise no_data_ingested, w') else (Ok tt, w')
      | (Raise e, w') => (Raise e, w')
      | (OutOfFuel, w') => (OutOfFuel, w')
      end
  | Raise e => (Raise e, w)
  | OutOfFuel => (OutOfFuel, w)
  end.
Proof.
  intros Hs Hne. unfold main, run_interval. rewrite Hs.
  apply String.eqb_neq in Hne. rewrite Hne.
  destruct (ltb (END_DATE args) (START_DATE args)); cbn [fst snd];
    unfold bind, lift;
    (destruct (split_into_month_aligned_chunks _ _ _ _) as [chunks|e|];
     [|reflexivity|reflexivity]);
    (destruct (chunk_loop _ _ _ _ chunks false w) as [[any|e|] w'];
     [|reflexivity|reflexivity]);
    destruct any; reflexivity.
Qed.


(** What the splitter raises is an [Exception]. *)
Lemma new_raise y m d ex : PyDate.new y m d = Raise ex -> is_Exception ex = true.
Proof.
  unfold PyDate.new.
  repeat match goal with
         | |- context [if ?x then _ else _] => destruct x
         end; intros [= <-] || intros [=]; reflexivity.
Qed.

Lemma timedelta_raise n ex : timedelta n = Raise ex -> is_Exception ex = true.
Proof.
  unfold timedelta. destruct (999999999 <? Z.abs n); intros [= <-] || intros [=].
  reflexivity.
Qed.

Lemma add_raise d n ex : PyDate.add d n = Raise ex -> is_Exception ex = true.
Proof.
  unfold PyDate.add. cbv zeta.
  destruct ((0 <? toordinal d + n) && (toordinal d + n <=? _MAXORDINAL));
    intros [= <-] || intros [=].
  reflexivity.
Qed.

Lemma month_end_raise d ex : month_end d = Raise ex -> is_Exception ex = true.
Proof.
  unfold month_end, PyDate.sub. intros H.
  destruct (if month d =? 12 then PyDate.new (year d + 1) 1 1
            else PyDate.new (year d) (month d + 1) 1) as [f|e|] eqn:Hn;
    cbn [bind_outcome] in H.
  - change (timedelta 1) with (Ok (A:=Z) 1) in H. cbn [bind_outcome] in H.
    change (timedelta (- (1))) with (Ok (A:=Z) (-1)) in H.
    cbn [bind_outcome] in H. now apply add_raise in H.
  - injection H as <-. destruct (month d =? 12); now apply new_raise in Hn.
  - discriminate.
Qed.

Lemma split_loop_raise e md :
  forall fuel cur acc ex,
    split_loop fuel cur e md acc = Raise ex -> is_Exception ex = true.
Proof.
  induction fuel as [|fuel IH]; intros cur acc ex H; [discriminate|].
  rewrite split_loop_S in H.
  destruct (leb cur e); [|discriminate].
  destruct (month_end cur) as [me|e1|] eqn:Hme; cbn [bind_outcome] in H;
    [|injection H as <-; now apply month_end_raise in Hme|discriminate].
  destruct (timedelta (md - 1)) as [delta|e1|] eqn:Htd; cbn [bind_outcome] in H;
    [|injection H as <-; now apply timedelta_raise in Htd|discriminate].
  destruct (PyDate.add cur delta) as [mbd|e1|] eqn:Hadd; cbn [bind_outcome] in H;
    [|injection H as <-; now apply add_raise in Hadd|discriminate].
  change (timedelta 1) with (Ok (A:=Z) 1) in H. cbn [bind_outcome] in H.
  destruct (PyDate.add (PyDate.min (PyDate.min me e) mbd) 1) as [next|e1|] eqn:Hn;
    cbn [bind_outcome] in H;
    [|injection H as <-; now apply add_raise in Hn|discriminate].
  now apply IH in H.
Qed.

(** C4: when the splitter returns the chunks of the run and the loop over
    them ends with [any_uploaded] false, no exception having ended it, then
    [main] raises the error of a run without data, the process exits with
    status 1, and [upload_file] was not called. *)
Theorem all_skipped_run_fails (E : Env) (fuel : nat) (args : Args) (w w' : World)
    (s3_output : string) (chunks : list Chunk) :
  S3_OUTPUT args = Some s3_output -> s3_output <> EmptyString ->
  split_into_month_aligned_chunks fuel (fst (run_interval args))
    (snd (run_interval args)) (MAX_DAYS_PER_CALL args) = Ok chunks ->
  chunk_loop E s3_output (CURRENCIES args) (ACCESS_KEY args) chunks false w
  = (Ok false, w') ->
  main E fuel args w = (Raise no_data_ingested, w') /\
  script E fuel args w = (Ok 1, w') /\
  uploads w' = uploads w.
Proof.
  intros Hs Hne Hsplit Hloop.
  assert (Hmain : main E fuel args w = (Raise no_data_ingested, w')).
  { rewrite (main_with_output E fuel args w s3_output Hs Hne), Hsplit, Hloop.
    reflexivity. }
  split; [exact Hmain|]. split.
  - unfold script. rewrite Hmain. reflexivity.
  - now apply chunk_loop_false in Hloop.
Qed.

Lemma all_skipped_run_fails_witness :
  exists w',
    main (constant_env empty_rates) 40 (example_args "s3://bucket/raw/" 365)
      empty_world = (Raise no_data_ingested, w') /\
    script (constant_env empty_rates) 40 (example_args "s3://bucket/raw/" 365)
      empty_world = (Ok 1, w') /\
    uploads w' = uploads empty_world.
Proof.
  eexists.
  apply (all_skipped_run_fails (constant_env empty_rates) 40
           (example_args "s3://bucket/raw/" 365) empty_world _ "s3://bucket/raw/"
           [mkChunk "2025-05-15" "2025-05-31"; mkChunk "2025-06-01" "2025-06-10"]).
  - reflexivity.
  - discriminate.
  - reflexivity.
  - reflexivity.
Defined.

(** C5: when the loop has passed the chunks before [c] and the fetch of
    [c] raises, [main] ends with that error in the world the fetch left:
    three requests for [c] and none after, no call of [upload_file] for
    [c] or any later chunk.  The error is the one that carries the last
    cause, and the process exits with status 1. *)
Theorem fetch_failure_aborts_run (E : Env) (fuel : nat) (args : Args)
    (w w1 w2 : World) (s3_output : string) (pre post : list Chunk) (c : Chunk)
    (any : bool) (ex : exn) :
  S3_OUTPUT args = Some s3_output -> s3_output <> EmptyString ->
  split_into_month_aligned_chunks fuel (fst (run_interval args))
    (snd (run_interval args)) (MAX_DAYS_PER_CALL args) = Ok (pre ++ c :: post)%list ->
  chunk_loop E s3_output (CURRENCIES args) (ACCESS_KEY args) pre false w
  = (Ok any, w1) ->
  call_timeframe E (start_date c) (end_date c) (CURRENCIES args) (ACCESS_KEY args) w1
  = (Raise ex, w2) ->
  main E fuel args w = (Raise ex, w2) /\
  script E fuel args w = (Ok 1, w2) /\
  uploads w2 = uploads w1 /\
  w2 = after_requests w1
         (mkRequest API_URL
            (query_of (start_date c) (end_date c) (CURRENCIES args) (ACCESS_KEY args))
            30) 3 /\
  exists cause, ex = fetch_failed (start_date c) (end_date c) (FExn cause).
Proof.
  intros Hs Hne Hsplit Hpre Hfetch.
  destruct (call_timeframe_spec E (start_date c) (end_date c) (CURRENCIES args)
              (ACCESS_KEY args) w1) as (k & res & Hrun & _ & Hres).
  rewrite Hfetch in Hrun.
  destruct Hres as [(body & -> & _) | (-> & cause & -> & _)]; [discriminate|].
  injection Hrun as -> ->.
  assert (Hmain : main E fuel args w
                  = (Raise (fetch_failed (start_date c) (end_date c) (FExn cause)),
                     after_requests w1
                       (mkRequest API_URL
                          (query_of (start_date c) (end_date c) (CURRENCIES args)
                             (ACCESS_KEY args)) 30) 3)).
  { rewrite (main_with_output E fuel args w s3_output Hs Hne), Hsplit.
    rewrite chunk_loop_app, Hpre, chunk_loop_cons, Hfetch. reflexivity. }
  split; [exact Hmain|]. split; [unfold script; now rewrite Hmain|].
  split; [reflexivity|]. split; [reflexivity|]. now exists cause.
Qed.

Lemma fetch_failure_aborts_run_witness :
  exists w2 ex,
    main (constant_env api_error) 40 (example_args "s3://bucket/raw/" 365)
      empty_world = (Raise ex, w2) /\
    script (constant_env api_error) 40 (example_args "s3://bucket/raw/" 365)
      empty_world = (Ok 1, w2) /\
    uploads w2 = uploads empty_world /\
    w2 = after_requests empty_world
           (mkRequest API_URL
              (query_of "2025-05-15" "2025-05-31" ["USD"; "EUR"; "INR"] None) 30) 3 /\
    exists cause, ex = fetch_failed "2025-05-15" "2025-05-31" (FExn cause).
Proof.
  eexists _, _.
  apply (fetch_failure_aborts_run (constant_env api_error) 40
           (example_args "s3://bucket/raw/" 365) empty_world empty_world _
           "s3://bucket/raw/" [] [mkChunk "2025-06-01" "2025-06-10"]
           (mkChunk "2025-05-15" "2025-05-31") false).
  - reflexivity.
  - discriminate.
  - reflexivity.
  - reflexivity.
  - reflexivity.
Defined.






(** C8, as amended: for a destination that contains [/currency-script/] or
    ends in [currency.py], [upload_json_to_s3] raises without calling
    [upload_file]: the error of the guard when the destination starts with
    [s3://], and else the [ValueError] of the check before it.  When the
    destination is that of a usable chunk of a run, [main] ends with that
    error in the world the fetch of the chunk left, and the process exits
    with status 1. *)
Theorem script_path_upload_refused (E : Env) (obj : pyval) (s3_uri : string)
    (w : World) :
  script_path s3_uri = true ->
  let refusal :=
    if startswith s3_uri "s3://" then write_rejected
    else ValueError "S3 path must start with s3://" in
  upload_json_to_s3 E obj s3_uri w = (Raise refusal, w) /\
  forall fuel args w0 w1 s3_output pre c post any start_dt,
    S3_OUTPUT args = Some s3_output -> s3_output <> EmptyString ->
    split_into_month_aligned_chunks fuel (fst (run_interval args))
      (snd (run_interval args)) (MAX_DAYS_PER_CALL args)
    = Ok (pre ++ c :: post)%list ->
    chunk_loop E s3_output (CURRENCIES args) (ACCESS_KEY args) pre false w0
    = (Ok any, w1) ->
    call_timeframe E (start_date c) (end_date c) (CURRENCIES args)
      (ACCESS_KEY args) w1 = (Ok obj, w) ->
    validate obj = Usable ->
    fromisoformat (start_date c) = Ok start_dt ->
    s3_target_of s3_output c start_dt = s3_uri ->
    main E fuel args w0 = (Raise refusal, w) /\
    script E fuel args w0 = (Ok 1, w).
Proof.
  intros Hpath refusal.
  pose proof (upload_guard E obj s3_uri w Hpath) as Hup. fold refusal in Hup.
  split; [exact Hup|].
  intros fuel args w0 w1 s3_output pre c post any start_dt
    Hs Hne Hsplit Hpre Hfetch Hval Hdt Htarget.
  assert (Hmain : main E fuel args w0 = (Raise refusal, w)).
  { rewrite (main_with_output E fuel args w0 s3_output Hs Hne), Hsplit.
    rewrite chunk_loop_app, Hpre, chunk_loop_cons, Hfetch, Hval, Hdt, Htarget, Hup.
    reflexivity. }
  split; [exact Hmain|]. unfold script. rewrite Hmain.
  unfold refusal. now destruct (startswith s3_uri "s3://").
Qed.

Lemma script_path_upload_refused_witness :
  let s3_uri :=
    "s3://bucket/currency-script/year=2025/month=05/timeframe_2025-05-15_to_2025-05-31.json" in
  let refusal :=
    if startswith s3_uri "s3://" then write_rejected
    else ValueError "S3 path must start with s3://" in
  let w :=
    after_requests empty_world
      (mkRequest API_URL
         (query_of "2025-05-15" "2025-05-31" ["USD"; "EUR"; "INR"] None) 30) 1 in
  upload_json_to_s3 (constant_env some_quotes) some_quotes s3_uri w
  = (Raise refusal, w) /\
  forall fuel args w0 w1 s3_output pre c post any start_dt,
    S3_OUTPUT args = Some s3_output -> s3_output <> EmptyString ->
    split_into_month_aligned_chunks fuel (fst (run_interval args))
      (snd (run_interval args)) (MAX_DAYS_PER_CALL args)
    = Ok (pre ++ c :: post)%list ->
    chunk_loop (constant_env some_quotes) s3_output (CURRENCIES args)
      (ACCESS_KEY args) pre false w0 = (Ok any, w1) ->
    call_timeframe (constant_env some_quotes) (start_date c) (end_date c)
      (CURRENCIES args) (ACCESS_KEY args) w1 = (Ok some_quotes, w) ->
    validate some_quotes = Usable ->
    fromisoformat (start_date c) = Ok start_dt ->
    s3_target_of s3_output c start_dt = s3_uri ->
    main (constant_env some_quotes) fuel args w0 = (Raise refusal, w) /\
    script (constant_env some_quotes) fuel args w0 = (Ok 1, w).
Proof.
  apply (script_path_upload_refused (constant_env some_quotes) some_quotes
           "s3://bucket/currency-script/year=2025/month=05/timeframe_2025-05-15_to_2025-05-31.json"
           (after_requests empty_world
              (mkRequest API_URL
                 (query_of "2025-05-15" "2025-05-31" ["USD"; "EUR"; "INR"] None) 30)
              1)).
  reflexivity.
Defined.

(** A run whose output is under [/currency-script/]: the first chunk is
    fetched, its upload is refused, nothing is uploaded and no other chunk
    is fetched. *)
Example run_into_script_path :
  script (constant_env some_quotes) 40
    (example_args "s3://bucket/currency-script/" 365) empty_world
  = (Ok 1,
     after_requests empty_world
       (mkRequest API_URL
          (query_of "2025-05-15" "2025-05-31" ["USD"; "EUR"; "INR"] None) 30) 1).
Proof. reflexivity. Qed.

(** C8 as stated fails for a destination that does not start with
    [s3://]: the error is the [ValueError] of the first check, not that of
    the guard. *)
Lemma script_path_without_scheme :
  script_path "backup/currency.py" = true /\
  upload_json_to_s3 (constant_env some_quotes) some_quotes "backup/currency.py"
    empty_world
  = (Raise (ValueError "S3 path must start with s3://"), empty_world) /\
  upload_json_to_s3 (constant_env some_quotes) some_quotes "backup/currency.py"
    empty_world
  <> (Raise write_rejected, empty_world).
Proof.
  split; [reflexivity|]. split; [reflexivity|]. discriminate.
Qed.

(** C3 fails on the code for a status of 600 or more: the attempt is one
    the claim calls failed, yet [raise_for_status] raises nothing for it and
    [call_timeframe] returns the body after one request. *)
Theorem status_600_is_returned :
  let req :=
    mkRequest API_URL (query_of "2025-05-15" "2025-05-31" ["USD"; "EUR"] None) 30 in
  failed_attempt (http (status_env 600 some_quotes) [] req) = true /\
  call_timeframe (status_env 600 some_quotes) "2025-05-15" "2025-05-31"
    ["USD"; "EUR"] None empty_world
  = (Ok some_quotes, after_requests empty_world req 1).
Proof. split; reflexivity. Qed.

(** On statuses below 600 the fetch is as C3 says: at most three requests,
    one per attempt, and three failed attempts end in the error that
    carries the exception of the third. *)
Example three_failures_exhaust_retries :
  call_timeframe (status_env 503 some_quotes) "2025-05-15" "2025-05-31"
    ["USD"; "EUR"] None empty_world
  = (Raise (fetch_failed "2025-05-15" "2025-05-31" (FExn (HTTPError 503))),
     after_requests empty_world
       (mkRequest API_URL (query_of "2025-05-15" "2025-05-31" ["USD"; "EUR"] None) 30)
       3).
Proof. reflexivity. Qed.

(** * Strings *)


Lemma append_nil_r (a : string) : a ++ EmptyString = a.
Proof. induction a as [|x a IH]; cbn [append]; [reflexivity | now rewrite IH]. Qed.

Lemma prefix_nil (s : string) : String.prefix EmptyString s = true.
Proof. now destruct s. Qed.

Lemma prefix_append (p s : string) : String.prefix p (p ++ s) = true.
Proof.
  induction p as [|x p IH]; cbn [append]; [apply prefix_nil|].
  cbn [String.prefix]. now destruct (ascii_dec x x).
Qed.

Lemma substring_all (s : string) : substring 0 (String.length s) s = s.
Proof. induction s as [|x s IH]; cbn; [reflexivity | now rewrite IH]. Qed.

Lemma substring_skip (p s : string) (n : nat) :
  substring (String.length p) n (p ++ s) = substring 0 n s.
Proof. induction p as [|x p IH]; cbn [String.length append substring]; auto. Qed.

Lemma length_append (a b : string) :
  String.length (a ++ b) = (String.length a + String.length b)%nat.
Proof. induction a as [|x a IH]; cbn; [reflexivity | now rewrite IH]. Qed.

(** [sep] is found at the start of [sep ++ s]. *)
Lemma partition_at_start (sep s : string) :
  sep <> EmptyString ->
  partition sep (sep ++ s) = (EmptyString, sep, s).
Proof.
  intros Hne. destruct sep as [|x sep]; [contradiction|].
  change (partition (String x sep) (String x sep ++ s))
    with (if String.prefix (String x sep) (String x sep ++ s)
          then (EmptyString, String x sep,
                substring (String.length (String x sep))
                  (String.length (String x sep ++ s) - String.length (String x sep))
                  (String x sep ++ s))
          else let '(before, found, after) := partition (String x sep) (sep ++ s) in
               (String x before, found, after)).
  rewrite prefix_append, length_append, substring_skip.
  replace (String.length (String x sep) + String.length s
           - String.length (String x sep))%nat with (String.length s) by lia.
  now rewrite substring_all.
Qed.

Lemma prefix_char (c x : ascii) (t : string) :
  String.prefix (String c EmptyString) (String x t)
  = if ascii_dec c x then true else false.
Proof. cbn [String.prefix]. destruct (ascii_dec c x); [apply prefix_nil | reflexivity]. Qed.

(** The one-character separator [c] is found after a text without it. *)
Lemma partition_char (c : ascii) (a s : string) :
  str_in (String c EmptyString) a = false ->
  partition (String c EmptyString) (a ++ String c s) = (a, String c EmptyString, s).
Proof.
  induction a as [|x a IH]; intros Hno.
  - apply (partition_at_start (String c EmptyString) s). discriminate.
  - cbn [str_in] in Hno. apply orb_false_iff in Hno. destruct Hno as [Hx Ha].
    rewrite prefix_char in Hx.
    cbn [append partition]. rewrite prefix_char, Hx.
    now rewrite (IH Ha).
Qed.

Lemma str_in_char_append (c : ascii) (a s : string) :
  str_in (String c EmptyString) (a ++ String c s) = true.
Proof.
  induction a as [|x a IH]; cbn [append str_in].
  - cbn [String.prefix]. destruct (ascii_dec c c); [|contradiction].
    now rewrite prefix_nil.
  - rewrite IH. apply orb_true_r.
Qed.

Lemma lstrip_dash_append (k rest : string) (c : ascii) :
  c <> "-"%char ->
  lstrip_dash (k ++ String c rest) = lstrip_dash k ++ String c rest.
Proof.
  intros Hc. induction k as [|x k IH]; cbn [append lstrip_dash].
  - apply Ascii.eqb_neq in Hc. now rewrite Hc.
  - destruct (Ascii.eqb x "-"); [exact IH | reflexivity].
Qed.

Lemma lstrip_dash_no_char (c : ascii) (k : string) :
  str_in (String c EmptyString) k = false ->
  str_in (String c EmptyString) (lstrip_dash k) = false.
Proof.
  induction k as [|x k IH]; intros H; [exact H|].
  cbn [lstrip_dash]. destruct (Ascii.eqb x "-"); [|exact H].
  apply IH. cbn [str_in] in H. now apply orb_false_iff in H.
Qed.

(** * The dictionary *)

Lemma dict_lookup_set_same {A} (items : list (string * A)) k v :
  dict_lookup (dict_set items k v) k = Some v.
Proof.
  induction items as [|[k' v'] rest IH]; cbn [dict_set dict_lookup].
  - now rewrite String.eqb_refl.
  - destruct (String.eqb k' k) eqn:E; cbn [dict_lookup]; now rewrite E.
Qed.

Lemma dict_lookup_set_other {A} (items : list (string * A)) k v k' :
  k' <> k -> dict_lookup (dict_set items k v) k' = dict_lookup items k'.
Proof.
  intros Hne. induction items as [|[k0 v0] rest IH]; cbn [dict_set dict_lookup].
  - apply not_eq_sym, String.eqb_neq in Hne. now rewrite Hne.
  - destruct (String.eqb k0 k) eqn:E; cbn [dict_lookup].
    + apply String.eqb_eq in E. subst k0.
      apply not_eq_sym, String.eqb_neq in Hne. now rewrite Hne.
    + now rewrite IH.
Qed.

(** * The CLI parser *)

Section CommandLineFacts.

Variable upper : string -> string.

Let parse := parse_tokens upper.

Lemma parse_tokens_cons token rest out :
  parse (token :: rest) out =
  if negb (startswith token "--") then parse rest out
  else if str_in "=" (lstrip_dash token) then
    let '(k, _, v) := partition "=" (lstrip_dash token) in
    parse rest (dict_set out (upper k) v)
  else
    match rest with
    | next :: rest' =>
        if negb (startswith next "--")
        then parse rest' (dict_set out (upper (lstrip_dash token)) next)
        else parse rest (dict_set out (upper (lstrip_dash token)) EmptyString)
    | [] => parse rest (dict_set out (upper (lstrip_dash token)) EmptyString)
    end.
Proof. reflexivity. Qed.

(** The tokens before an option are read as if the line ended there. *)
Lemma parse_tokens_app n :
  forall pre, (List.length pre <= n)%nat ->
  forall t rest out,
    startswith t "--" = true ->
    parse (pre ++ t :: rest)%list out = parse (t :: rest) (parse pre out).
Proof.
  induction n as [|n IH]; intros pre Hn t rest out Ht.
  { destruct pre; [reflexivity | cbn in Hn; lia]. }
  destruct pre as [|x pre]; [reflexivity|].
  cbn [List.length] in Hn.
  rewrite <- app_comm_cons, (parse_tokens_cons x pre), (parse_tokens_cons x).
  destruct (negb (startswith x "--")); [apply IH; [lia | exact Ht]|].
  destruct (str_in "=" (lstrip_dash x)).
  { destruct (partition "=" (lstrip_dash x)) as [[k ?] v].
    apply IH; [lia | exact Ht]. }
  destruct pre as [|next pre'].
  - cbn [app]. rewrite Ht. cbn [negb]. reflexivity.
  - rewrite <- app_comm_cons.
    destruct (negb (startswith next "--")).
    + apply IH; [cbn [List.length] in Hn; lia | exact Ht].
    + rewrite app_comm_cons. apply IH; [lia | exact Ht].
Qed.

Lemma option_token k : startswith ("--" ++ k) "--" = true.
Proof. unfold startswith. apply prefix_append. Qed.

Lemma parse_equals_form pre k v rest out :
  str_in "=" k = false ->
  parse (pre ++ ("--" ++ k ++ "=" ++ v)%string :: rest)%list out =
  parse rest (dict_set (parse pre out) (upper (lstrip_dash k)) v).
Proof.
  intros Hk.
  rewrite (parse_tokens_app (List.length pre) pre (Nat.le_refl _))
    by apply option_token.
  rewrite parse_tokens_cons, option_token. cbn [negb].
  change (lstrip_dash ("--" ++ k ++ "=" ++ v)) with (lstrip_dash (k ++ "=" ++ v)).
  change (k ++ "=" ++ v) with (k ++ String "=" v).
  rewrite lstrip_dash_append by discriminate.
  rewrite str_in_char_append.
  now rewrite partition_char by now apply lstrip_dash_no_char.
Qed.

Lemma parse_flag_form pre k rest out :
  str_in "=" k = false ->
  match rest with
  | [] => True
  | next :: _ => startswith next "--" = true
  end ->
  parse (pre ++ ("--" ++ k)%string :: rest)%list out =
  parse rest (dict_set (parse pre out) (upper (lstrip_dash k)) EmptyString).
Proof.
  intros Hk Hrest.
  rewrite (parse_tokens_app (List.length pre) pre (Nat.le_refl _))
    by apply option_token.
  rewrite parse_tokens_cons, option_token. cbn [negb].
  change (lstrip_dash ("--" ++ k)) with (lstrip_dash k).
  rewrite (lstrip_dash_no_char "=" k Hk).
  destruct rest as [|next rest']; [reflexivity|]. now rewrite Hrest.
Qed.

Lemma parse_space_form pre k v rest out :
  str_in "=" k = false -> startswith v "--" = false ->
  parse (pre ++ ("--" ++ k)%string :: v :: rest)%list out =
  parse rest (dict_set (parse pre out) (upper (lstrip_dash k)) v).
Proof.
  intros Hk Hv.
  rewrite (parse_tokens_app (List.length pre) pre (Nat.le_refl _))
    by apply option_token.
  rewrite parse_tokens_cons, option_token. cbn [negb].
  change (lstrip_dash ("--" ++ k)) with (lstrip_dash k).
  rewrite (lstrip_dash_no_char "=" k Hk). now rewrite Hv.
Qed.

End CommandLineFacts.

(** * More on the CLI parser *)

(** X1: an option written [--KEY=value] and the same option written
    [--KEY value] give the same dictionary, wherever it stands on the line,
    when [KEY] has no [=] and [value] does not start with [--]. *)
Theorem cli_equals_form_is_space_form (upper : string -> string)
    (argv0 : string) (pre rest : list string) (k v : string) :
  str_in "=" k = false -> startswith v "--" = false ->
  parse_cli_args upper (argv0 :: pre ++ ("--" ++ k ++ "=" ++ v)%string :: rest)%list
  = parse_cli_args upper (argv0 :: pre ++ ("--" ++ k)%string :: v :: rest)%list.
Proof.
  intros Hk Hv. unfold parse_cli_args. cbn [List.tl].
  now rewrite parse_equals_form, parse_space_form.
Qed.

Lemma cli_equals_form_is_space_form_witness :
  parse_cli_args ascii_upper
    ("prog" :: ["--S3_OUTPUT"; "s3://b/raw/"]
       ++ ("--" ++ "end_date" ++ "=" ++ "TODAY")%string :: ["--CURRENCIES=USD,EUR"])%list
  = parse_cli_args ascii_upper
      ("prog" :: ["--S3_OUTPUT"; "s3://b/raw/"]
         ++ ("--" ++ "end_date")%string :: "TODAY" :: ["--CURRENCIES=USD,EUR"])%list.
Proof.
  apply (cli_equals_form_is_space_form ascii_upper "prog"
           ["--S3_OUTPUT"; "s3://b/raw/"] ["--CURRENCIES=USD,EUR"]
           "end_date" "TODAY").
  - reflexivity.
  - reflexivity.
Defined.

(** X2: an option [--KEY=value] added at the end of a command line that
    has a program name sets [KEY], upper-cased and without leading dashes,
    to [value], whatever was given for it before, and leaves every other
    key as it was. *)
Theorem cli_last_option_wins (upper : string -> string) (argv : list string)
    (k v : string) :
  argv <> [] -> str_in "=" k = false ->
  let args := parse_cli_args upper (argv ++ [("--" ++ k ++ "=" ++ v)%string])%list in
  dict_lookup args (upper (lstrip_dash k)) = Some v /\
  forall k', k' <> upper (lstrip_dash k) ->
    dict_lookup args k' = dict_lookup (parse_cli_args upper argv) k'.
Proof.
  intros Hne Hk args. subst args. unfold parse_cli_args.
  destruct argv as [|argv0 pre]; [contradiction|].
  cbn [List.tl app]. rewrite parse_equals_form by assumption.
  cbn [parse_tokens]. split.
  - apply dict_lookup_set_same.
  - intros k' Hk'. now apply dict_lookup_set_other.
Qed.

Lemma cli_last_option_wins_witness :
  let args :=
    parse_cli_args ascii_upper
      (["prog"; "--max_days_per_call"; "365"; "--S3_OUTPUT=s3://b/raw/"]
         ++ [("--" ++ "MAX_DAYS_PER_CALL" ++ "=" ++ "31")%string])%list in
  dict_lookup args (ascii_upper (lstrip_dash "MAX_DAYS_PER_CALL")) = Some "31" /\
  forall k', k' <> ascii_upper (lstrip_dash "MAX_DAYS_PER_CALL") ->
    dict_lookup args k'
    = dict_lookup
        (parse_cli_args ascii_upper
           ["prog"; "--max_days_per_call"; "365"; "--S3_OUTPUT=s3://b/raw/"]) k'.
Proof.
  apply (cli_last_option_wins ascii_upper
           ["prog"; "--max_days_per_call"; "365"; "--S3_OUTPUT=s3://b/raw/"]
           "MAX_DAYS_PER_CALL" "31").
  - discriminate.
  - reflexivity.
Defined.

(** X3: an option without [=] that is the last token, or is followed by a
    token that starts with [--], is set to the empty string, and the token
    after it is read as an option of its own: a value that starts with [--]
    cannot be given in the form [--KEY value]. *)
Theorem cli_option_without_value (upper : string -> string) (argv0 : string)
    (pre rest : list string) (k : string) :
  str_in "=" k = false ->
  match rest with
  | [] => True
  | next :: _ => startswith next "--" = true
  end ->
  parse_cli_args upper (argv0 :: pre ++ ("--" ++ k)%string :: rest)%list
  = parse_tokens upper rest
      (dict_set (parse_cli_args upper (argv0 :: pre)) (upper (lstrip_dash k))
         EmptyString).
Proof.
  intros Hk Hrest. unfold parse_cli_args. cbn [List.tl].
  now apply parse_flag_form.
Qed.

Lemma cli_option_without_value_witness :
  parse_cli_args ascii_upper
    ("prog" :: ["--S3_OUTPUT=s3://b/raw/"]
       ++ ("--" ++ "START_DATE")%string :: ["--2025-05-01"])%list
  = parse_tokens ascii_upper ["--2025-05-01"]
      (dict_set (parse_cli_args ascii_upper ("prog" :: ["--S3_OUTPUT=s3://b/raw/"]))
         (ascii_upper (lstrip_dash "START_DATE")) EmptyString).
Proof.
  apply (cli_option_without_value ascii_upper "prog" ["--S3_OUTPUT=s3://b/raw/"]
           ["--2025-05-01"] "START_DATE").
  - reflexivity.
  - reflexivity.
Defined.

(** X4: a command line cut before a token that starts with [--] is parsed
    part by part: the tokens before the cut as a command line of their own,
    and the rest from the dictionary they gave. *)
Theorem cli_parse_composes (upper : string -> string) (argv0 t : string)
    (pre rest : list string) :
  startswith t "--" = true ->
  parse_cli_args upper (argv0 :: pre ++ t :: rest)%list
  = parse_tokens upper (t :: rest) (parse_cli_args upper (argv0 :: pre)).
Proof.
  intros Ht. unfold parse_cli_args. cbn [List.tl].
  now apply (parse_tokens_app upper (List.length pre)).
Qed.

Lemma cli_parse_composes_witness :
  parse_cli_args ascii_upper
    ("prog" :: ["--START_DATE"; "2025-05-01"; "--flag"]
       ++ "--END_DATE=TODAY" :: ["extra"])%list
  = parse_tokens ascii_upper ("--END_DATE=TODAY" :: ["extra"])
      (parse_cli_args ascii_upper
         ("prog" :: ["--START_DATE"; "2025-05-01"; "--flag"])).
Proof.
  apply (cli_parse_composes ascii_upper "prog" "--END_DATE=TODAY"
           ["--START_DATE"; "2025-05-01"; "--flag"] ["extra"]).
  reflexivity.
Defined.

(** * More on the month end *)

Lemma first_of_next_month_facts d :
  valid d -> ltb d (mkdate 9999 12 1) = true ->
  valid (first_of_next_month d) /\
  toordinal (first_of_next_month d) = toordinal (last_of_month d) + 1.
Proof.
  intros Hv Hlt. pose proof (valid_fields d Hv) as (Hy & Hm & Hd).
  apply ltb_iff in Hlt. cbn [year month day] in Hlt.
  unfold first_of_next_month.
  destruct (Z.eqb_spec (month d) 12) as [E12|N12].
  - split; [unfold valid; cbn [year month day]; apply first_of_month_valid; lia|].
    unfold toordinal, last_of_month, _ymd2ord. cbn [year month day].
    rewrite year_length by lia. rewrite E12.
    pose proof (_days_before_month_december (year d)).
    unfold _days_before_month at 1.
    change (_DAYS_BEFORE_MONTH 1) with 0. change (2 <? 1) with false.
    cbn [andb]. destruct (_is_leap (year d)); lia.
  - split; [unfold valid; cbn [year month day]; apply first_of_month_valid; lia|].
    unfold toordinal, last_of_month, _ymd2ord. cbn [year month day].
    rewrite _days_before_month_succ by lia. lia.
Qed.

(** X5: for a date before December 9999, [month_end] returns the last day
    of the date's month: a date of the same year and month, not before the
    given one, whose day is the number of days of the month and whose next
    day is the first of the following month. *)
Theorem month_end_is_last_day_of_month (d : date) :
  valid d -> ltb d (mkdate 9999 12 1) = true ->
  exists me,
    month_end d = Ok me /\ valid me /\ same_month d me /\ leb d me = true /\
    day me = _days_in_month (year d) (month d) /\
    PyDate.add me 1 = Ok (first_of_next_month d).
Proof.
  intros Hv Hlt. exists (last_of_month d).
  pose proof (last_of_month_valid d Hv) as Hl.
  destruct (first_of_next_month_facts d Hv Hlt) as [Hvf Hof].
  split; [now apply month_end_before_december_9999|].
  split; [exact Hl|]. split; [split; reflexivity|].
  split.
  { rewrite leb_toordinal by assumption. apply Z.leb_le.
    now apply last_of_month_toordinal. }
  split; [reflexivity|].
  pose proof (toordinal_range _ Hvf) as Rf.
  destruct (add_ok (last_of_month d) 1 Hl ltac:(lia)) as (n & -> & Hvn & Hon).
  f_equal. apply toordinal_inj; auto. lia.
Qed.

Lemma month_end_is_last_day_of_month_witness :
  exists me,
    month_end (mkdate 2024 2 10) = Ok me /\ valid me /\
    same_month (mkdate 2024 2 10) me /\ leb (mkdate 2024 2 10) me = true /\
    day me = _days_in_month 2024 2 /\
    PyDate.add me 1 = Ok (first_of_next_month (mkdate 2024 2 10)).
Proof.
  apply (month_end_is_last_day_of_month (mkdate 2024 2 10)).
  - reflexivity.
  - reflexivity.
Defined.

(** X6: for every date of December 9999 [month_end] raises [ValueError]:
    the first day of the next month would be in year 10000. *)
Theorem month_end_raises_in_december_9999 (d : date) :
  valid d -> year d = 9999 -> month d = 12 ->
  month_end d = Raise (ValueError "year is out of range").
Proof.
  intros Hv Hy Hm. rewrite month_end_eq by assumption.
  now rewrite Hy, Hm.
Qed.

Lemma month_end_raises_in_december_9999_witness :
  month_end (mkdate 9999 12 5) = Raise (ValueError "year is out of range").
Proof.
  apply (month_end_raises_in_december_9999 (mkdate 9999 12 5)); reflexivity.
Defined.

(** * More on the splitter *)

Lemma same_month_before_last s e :
  valid e -> same_month s e -> toordinal e <= toordinal (last_of_month s).
Proof.
  intros He [Hy Hm]. apply valid_fields in He.
  unfold toordinal, last_of_month, _ymd2ord. cbn [year month day].
  rewrite Hy, Hm. lia.
Qed.

Lemma before_december_9999 d :
  valid d -> (exists me, month_end d = Ok me) -> ltb d (mkdate 9999 12 1) = true.
Proof.
  intros Hv [me Hme]. rewrite month_end_eq in Hme by assumption.
  apply valid_fields in Hv. apply ltb_iff. cbn [year month day].
  destruct (Z.eqb_spec (year d) 9999), (Z.eqb_spec (month d) 12);
    cbn [andb] in Hme; try discriminate; lia.
Qed.

(** X7: when [s] and [e] are in the same month, [s <= e], the range has at
    most [max_days] days and no date leaves the range of [date], the
    splitter returns the one chunk from [s] to [e]; so for [s = e] a chunk
    of one day. *)
Theorem one_chunk_when_range_fits (fuel : nat) (s e : date) (max_days : Z) :
  valid s -> valid e -> leb s e = true -> same_month s e ->
  span_days (s, e) <= max_days -> in_date_range e max_days -> (2 <= fuel)%nat ->
  split_into_month_aligned_chunks fuel s e max_days = Ok [chunk_of (s, e)].
Proof.
  intros Hs He Hle Hsm Hspan [Hdec Hmax] Hf.
  destruct fuel as [|[|k]]; try lia.
  pose proof Hle as Hle'. rewrite leb_toordinal in Hle' by assumption.
  apply Z.leb_le in Hle'.
  unfold span_days in Hspan. cbn [fst snd] in Hspan.
  pose proof (toordinal_range s Hs) as Rs. pose proof (toordinal_range e He) as Re.
  assert (Hedec : toordinal e < 3652029).
  { rewrite ltb_toordinal in Hdec by (assumption || reflexivity).
    now apply Z.ltb_lt in Hdec. }
  assert (Hsdec : ltb s (mkdate 9999 12 1) = true).
  { rewrite ltb_toordinal by (assumption || reflexivity). apply Z.ltb_lt.
    change (toordinal (mkdate 9999 12 1)) with 3652029. lia. }
  unfold split_into_month_aligned_chunks, _MAXORDINAL in *.
  rewrite split_loop_S, Hle.
  rewrite (month_end_before_december_9999 s Hs Hsdec). cbn [bind_outcome].
  rewrite timedelta_Ok by lia. cbn [bind_outcome].
  destruct (add_ok s (max_days - 1) Hs ltac:(unfold _MAXORDINAL; lia))
    as (mbd & Hadd & Hvm & Hom).
  rewrite Hadd. cbn [bind_outcome].
  change (timedelta 1) with (Ok (A:=Z) 1). cbn [bind_outcome].
  pose proof (last_of_month_valid s Hs) as Hvl.
  pose proof (same_month_before_last s e He Hsm) as Hel.
  assert (E : PyDate.min (PyDate.min (last_of_month s) e) mbd = e).
  { apply toordinal_inj; auto using min_valid.
    rewrite !min_toordinal by auto using min_valid. lia. }
  rewrite E.
  destruct (add_ok e 1 He ltac:(unfold _MAXORDINAL; lia)) as (next & Hn & Hvn & Hon).
  rewrite Hn. cbn [bind_outcome].
  rewrite split_loop_S.
  replace (leb next e) with false
    by (symmetry; rewrite leb_toordinal by assumption; apply Z.leb_gt; lia).
  reflexivity.
Qed.

Lemma one_chunk_when_range_fits_witness :
  split_into_month_aligned_chunks 2 (mkdate 2025 5 20) (mkdate 2025 5 20) 1
  = Ok [chunk_of (mkdate 2025 5 20, mkdate 2025 5 20)].
Proof.
  apply (one_chunk_when_range_fits 2 (mkdate 2025 5 20) (mkdate 2025 5 20) 1).
  - reflexivity.
  - reflexivity.
  - reflexivity.
  - split; reflexivity.
  - vm_compute. discriminate.
  - split; [reflexivity | vm_compute; discriminate].
  - lia.
Defined.

Lemma chain_split e md ivf a b ivb :
  forall lo hi,
    chain e md lo hi (ivf ++ (a, b) :: ivb)%list ->
    valid a /\ valid b /\ toordinal a <= toordinal b <= hi /\
    (exists next, loop_turn e md a b next) /\
    chain e md (toordinal b + 1) hi ivb.
Proof.
  induction ivf as [|[a0 b0] ivf IH]; intros lo hi H.
  - cbn [app chain] in H. destruct H as (Ha & Hb & Hlo & Hr & Ht & Hrest).
    repeat split; try assumption; lia.
  - cbn [app chain] in H. destruct H as (_ & _ & _ & _ & _ & Hrest).
    apply (IH _ _ Hrest).
Qed.

(** The chunk at a place of the returned list, as the interval it was
    written from. *)
Lemma chunk_in_chain fuel s e md chunks front c back :
  valid s -> valid e -> leb s e = true -> 1 <= md ->
  split_into_month_aligned_chunks fuel s e md = Ok chunks ->
  chunks = (front ++ c :: back)%list ->
  exists a b ivb,
    c = chunk_of (a, b) /\ back = map chunk_of ivb /\
    valid a /\ valid b /\ toordinal a <= toordinal b <= toordinal e /\
    (exists next, loop_turn e md a b next) /\
    chain e md (toordinal b + 1) (toordinal e) ivb.
Proof.
  intros Hs He Hle Hmd Hrun Hc.
  destruct (split_chunks_chain fuel s e md chunks Hs He Hle Hmd Hrun)
    as (ivs & E & Hchain).
  rewrite E in Hc. apply map_eq_app in Hc.
  destruct Hc as (ivf & ivr & -> & _ & Hr).
  apply map_eq_cons in Hr. destruct Hr as ([a b] & ivb & -> & <- & <-).
  destruct (chain_split e md ivf a b ivb _ _ Hchain) as (Ha & Hb & Hr & Ht & Hrest).
  exists a, b, ivb. repeat split; try assumption; lia.
Qed.

(** X8: every chunk but the last is as long as it may be: it ends on the
    last day of its month or has exactly [max_days] days. *)
Theorem chunk_before_last_is_maximal (fuel : nat) (s e : date) (max_days : Z)
    (chunks front back : list Chunk) (c : Chunk) :
  valid s -> valid e -> leb s e = true -> 1 <= max_days ->
  split_into_month_aligned_chunks fuel s e max_days = Ok chunks ->
  chunks = (front ++ c :: back)%list -> back <> [] ->
  exists a b,
    chunk_dates c = Ok (a, b) /\
    (b = last_of_month a \/ span_days (a, b) = max_days).
Proof.
  intros Hs He Hle Hmd Hrun Hc Hback.
  destruct (chunk_in_chain fuel s e max_days chunks front c back
              Hs He Hle Hmd Hrun Hc)
    as (a & b & ivb & -> & -> & Ha & Hb & Hr & (next & Hturn) & Hrest).
  exists a, b. split; [now apply chunk_dates_chunk_of|].
  destruct ivb as [|[a' b'] ivb']; [contradiction|].
  cbn [chain] in Hrest. destruct Hrest as (_ & _ & Hlo & Hr' & _).
  destruct (loop_turn_facts e max_days a b next Ha He Hmd ltac:(lia) Hturn)
    as (_ & _ & Hob & _).
  destruct (Z.eq_dec (toordinal b) (toordinal (last_of_month a))) as [E|E].
  - left. apply toordinal_inj; auto using last_of_month_valid.
  - right. unfold span_days. cbn [fst snd]. lia.
Qed.

Lemma chunk_before_last_is_maximal_witness :
  exists a b,
    chunk_dates (mkChunk "2025-01-01" "2025-01-05") = Ok (a, b) /\
    (b = last_of_month a \/ span_days (a, b) = 5).
Proof.
  apply (chunk_before_last_is_maximal 10 (mkdate 2025 1 1) (mkdate 2025 1 10) 5
           [mkChunk "2025-01-01" "2025-01-05"; mkChunk "2025-01-06" "2025-01-10"]
           [] [mkChunk "2025-01-06" "2025-01-10"]).
  - reflexivity.
  - reflexivity.
  - reflexivity.
  - lia.
  - reflexivity.
  - reflexivity.
  - discriminate.
Defined.

(** X9: with [max_days >= 31], as with the default 365, the chunks are the
    months of the range: a chunk that is followed by another ends on the
    last day of its month, and the next one starts on the first day of the
    following month. *)
Theorem chunks_are_months_when_max_days_at_least_31 (fuel : nat) (s e : date)
    (max_days : Z) (chunks front back : list Chunk) (c c' : Chunk) :
  valid s -> valid e -> leb s e = true -> 31 <= max_days ->
  split_into_month_aligned_chunks fuel s e max_days = Ok chunks ->
  chunks = (front ++ c :: c' :: back)%list ->
  exists a b a' b',
    chunk_dates c = Ok (a, b) /\ chunk_dates c' = Ok (a', b') /\
    b = last_of_month a /\ a' = first_of_next_month a /\ day a' = 1.
Proof.
  intros Hs He Hle Hmd Hrun Hc.
  destruct (chunk_in_chain fuel s e max_days chunks front c (c' :: back)
              Hs He Hle ltac:(lia) Hrun Hc)
    as (a & b & ivb & -> & Hb' & Ha & Hb & Hr & (next & Hturn) & Hrest).
  destruct ivb as [|[a' b'] ivb']; [discriminate|].
  cbn [map] in Hb'. injection Hb' as -> _.
  cbn [chain] in Hrest. destruct Hrest as (Ha' & Hvb' & Hlo & Hr' & _).
  destruct (loop_turn_facts e max_days a b next Ha He ltac:(lia) ltac:(lia) Hturn)
    as (_ & _ & Hob & _).
  assert (Hdec : ltb a (mkdate 9999 12 1) = true).
  { apply before_december_9999; [assumption|].
    destruct Hturn as (me & _ & Hme & _). now exists me. }
  destruct (first_of_next_month_facts a Ha Hdec) as [Hvf Hof].
  pose proof (last_of_month_valid a Ha) as Hvl.
  assert (Hlen : toordinal (last_of_month a) - toordinal a <= 30).
  { pose proof (valid_fields a Ha) as (_ & Hm & Hd).
    pose proof (_days_in_month_bounds (year a) (month a) Hm).
    unfold toordinal, last_of_month, _ymd2ord. cbn [year month day]. lia. }
  assert (Eb : b = last_of_month a) by (apply toordinal_inj; auto; lia).
  assert (Ea : a' = first_of_next_month a) by (apply toordinal_inj; auto; lia).
  exists a, b, a', b'.
  split; [now apply chunk_dates_chunk_of|].
  split; [now apply chunk_dates_chunk_of|].
  split; [exact Eb|]. split; [exact Ea|].
  rewrite Ea. unfold first_of_next_month. now destruct (month a =? 12).
Qed.

Lemma chunks_are_months_when_max_days_at_least_31_witness :
  exists a b a' b',
    chunk_dates (mkChunk "2025-05-15" "2025-05-31") = Ok (a, b) /\
    chunk_dates (mkChunk "2025-06-01" "2025-06-10") = Ok (a', b') /\
    b = last_of_month a /\ a' = first_of_next_month a /\ day a' = 1.
Proof.
  apply (chunks_are_months_when_max_days_at_least_31 10 (mkdate 2025 5 15)
           (mkdate 2025 6 10) 365
           [mkChunk "2025-05-15" "2025-05-31"; mkChunk "2025-06-01" "2025-06-10"]
           [] []).
  - reflexivity.
  - reflexivity.
  - reflexivity.
  - lia.
  - reflexivity.
  - reflexivity.
Defined.

(** * More on the fetch *)

(** X10: [call_timeframe] sends one to three requests, all the same, and
    calls no upload; it returns the body its last attempt returned, or,
    having sent three requests, raises the error that carries the
    exception of the third attempt. *)
Theorem fetch_sends_one_to_three_requests (E : Env) (sd ed : string)
    (currencies : list string) (access_key : option string) (w : World) :
  let query := query_of sd ed currencies access_key in
  let req := mkRequest API_URL query 30 in
  exists k res,
    call_timeframe E sd ed currencies access_key w = (res, after_requests w req k) /\
    (1 <= k <= 3)%nat /\
    ((exists body, res = Ok body /\
                   fst (attempt E query (after_requests w req (k - 1))) = Ok body) \/
     (k = 3%nat /\
      exists ex, res = Raise (fetch_failed sd ed (FExn ex)) /\
                 fst (attempt E query (after_requests w req 2)) = Raise ex)).
Proof. exact (call_timeframe_spec E sd ed currencies access_key w). Qed.

Lemma retry_loop_recovers E query sd ed :
  forall k attempts last_exc w body,
    (k < List.length attempts)%nat ->
    (forall j, (j < k)%nat ->
       exists ex,
         fst (attempt E query (after_requests w (mkRequest API_URL query 30) j))
         = Raise ex) ->
    fst (attempt E query (after_requests w (mkRequest API_URL query 30) k))
    = Ok body ->
    retry_loop E attempts sd ed query last_exc w
    = (Ok body, after_requests w (mkRequest API_URL query 30) (S k)).
Proof.
  induction k as [|k IH]; intros attempts last_exc w body Hk Hfail Hgood;
    (destruct attempts as [|a rest]; [cbn in Hk; lia|]);
    cbn [retry_loop];
    destruct (attempt_spec E query w) as (r & Hr & Hne & Hex).
  - rewrite after_requests_0, Hr in Hgood. cbn [fst] in Hgood. subst r.
    now rewrite Hr.
  - destruct (Hfail 0%nat ltac:(lia)) as (ex & H0).
    rewrite after_requests_0, Hr in H0. cbn [fst] in H0. subst r.
    rewrite Hr, (Hex ex eq_refl).
    rewrite (IH rest (Some ex) _ body).
    + now rewrite after_requests_S.
    + cbn [List.length] in Hk. lia.
    + intros j Hj. rewrite after_requests_S. apply Hfail. lia.
    + now rewrite after_requests_S.
Qed.

(** X11: when the first [k] answers, [k < 3], are failures with a status
    below 600 and the next answer is not a failure, [call_timeframe]
    returns the JSON body of that answer after [k + 1] requests. *)
Theorem fetch_returns_first_good_answer (E : Env) (sd ed : string)
    (currencies : list string) (access_key : option string) (w : World)
    (k : nat) :
  let req := mkRequest API_URL (query_of sd ed currencies access_key) 30 in
  (k < 3)%nat ->
  (forall j, (j < k)%nat ->
     failed_attempt (http E (requests_sent w ++ repeat req j) req) = true /\
     forall r, http E (requests_sent w ++ repeat req j) req = GetReturns r ->
               status_code r < 600) ->
  failed_attempt (http E (requests_sent w ++ repeat req k) req) = false ->
  exists r body,
    http E (requests_sent w ++ repeat req k) req = GetReturns r /\
    json r = Some body /\
    call_timeframe E sd ed currencies access_key w
    = (Ok body, after_requests w req (S k)).
Proof.
  intros req Hk Hfail Hgood.
  destruct (good_attempt_returns E (query_of sd ed currencies access_key)
              (after_requests w req k) Hgood) as (r & body & Hr & Hj & Hb).
  exists r, body. split; [exact Hr|]. split; [exact Hj|].
  apply (retry_loop_recovers E (query_of sd ed currencies access_key) sd ed k).
  - exact Hk.
  - intros j Hjk. destruct (Hfail j Hjk) as [Hf Hs].
    apply (failed_attempt_raises E (query_of sd ed currencies access_key)
             (after_requests w req j) Hf Hs).
  - exact Hb.
Qed.

Lemma fetch_returns_first_good_answer_witness :
  let E :=
    scripted_env [GetRaises "timeout"; GetReturns (mkResponse 500 None)]
      (GetReturns (mkResponse 200 (Some some_quotes))) in
  let req :=
    mkRequest API_URL (query_of "2025-05-15" "2025-05-31" ["USD"] None) 30 in
  exists r body,
    http E (requests_sent empty_world ++ repeat req 2) req = GetReturns r /\
    json r = Some body /\
    call_timeframe E "2025-05-15" "2025-05-31" ["USD"] None empty_world
    = (Ok body, after_requests empty_world req 3).
Proof.
  apply (fetch_returns_first_good_answer
           (scripted_env [GetRaises "timeout"; GetReturns (mkResponse 500 None)]
              (GetReturns (mkResponse 200 (Some some_quotes))))
           "2025-05-15" "2025-05-31" ["USD"] None empty_world 2).
  - lia.
  - intros j Hj. destruct j as [|[|j]]; [| |lia].
    + split; [reflexivity | discriminate].
    + split; [reflexivity|]. intros r H. injection H as <-. cbn. lia.
  - reflexivity.
Defined.

(** X12: when three answers in a row are failures with a status below
    600, [call_timeframe] raises after the third request the error that
    names the chunk and carries the exception of the third attempt. *)
Theorem fetch_gives_up_after_three_failures (E : Env) (sd ed : string)
    (currencies : list string) (access_key : option string) (w : World) :
  let query := query_of sd ed currencies access_key in
  let req := mkRequest API_URL query 30 in
  (forall k, (k < 3)%nat ->
     failed_attempt (http E (requests_sent w ++ repeat req k) req) = true /\
     forall r, http E (requests_sent w ++ repeat req k) req = GetReturns r ->
               status_code r < 600) ->
  exists ex,
    call_timeframe E sd ed currencies access_key w
    = (Raise (fetch_failed sd ed (FExn ex)), after_requests w req 3) /\
    fst (attempt E query (after_requests w req 2)) = Raise ex.
Proof. exact (call_timeframe_exhausts E sd ed currencies access_key w). Qed.

Lemma fetch_gives_up_after_three_failures_witness :
  let E :=
    scripted_env [GetReturns (mkResponse 200 (Some api_error)); GetRaises "timeout"]
      (GetReturns (mkResponse 429 (Some empty_rates))) in
  let query := query_of "2025-05-15" "2025-05-31" ["USD"] None in
  let req := mkRequest API_URL query 30 in
  exists ex,
    call_timeframe E "2025-05-15" "2025-05-31" ["USD"] None empty_world
    = (Raise (fetch_failed "2025-05-15" "2025-05-31" (FExn ex)),
       after_requests empty_world req 3) /\
    fst (attempt E query (after_requests empty_world req 2)) = Raise ex.
Proof.
  apply (fetch_gives_up_after_three_failures
           (scripted_env
              [GetReturns (mkResponse 200 (Some api_error)); GetRaises "timeout"]
              (GetReturns (mkResponse 429 (Some empty_rates))))
           "2025-05-15" "2025-05-31" ["USD"] None empty_world).
  intros k Hk. destruct k as [|[|[|k]]]; [| | |lia].
  - split; [reflexivity|]. intros r H. injection H as <-. cbn. lia.
  - split; [reflexivity | discriminate].
  - split; [reflexivity|]. intros r H. injection H as <-. cbn. lia.
Defined.

(** * More on the upload *)




(** An upload sends no request, and raises nothing but an [Exception]. *)
Lemma upload_json_to_s3_spec E obj s3_uri w :
  exists r w',
    upload_json_to_s3 E obj s3_uri w = (r, w') /\
    requests_sent w' = requests_sent w /\
    r <> OutOfFuel /\ (forall ex, r = Raise ex -> is_Exception ex = true) /\
    (List.length (uploads w) <= List.length (uploads w'))%nat /\
    (r = Ok tt -> (List.length (uploads w) < List.length (uploads w'))%nat).
Proof.
  unfold upload_json_to_s3.
  destruct (negb (startswith s3_uri "s3://")).
  { eexists _, w. split; [reflexivity|]. split; [reflexivity|].
    split; [discriminate|]. split; [now intros ex [= <-]|].
    split; [lia | discriminate]. }
  destruct (str_in "/currency-script/" s3_uri || endswith s3_uri "currency.py").
  { eexists _, w. split; [reflexivity|]. split; [reflexivity|].
    split; [discriminate|]. split; [now intros ex [= <-]|].
    split; [lia | discriminate]. }
  destruct (partition "s3://" s3_uri) as [[? ?] rest].
  destruct (partition "/" rest) as [[bucket ?] key].
  unfold upload_file.
  destruct (s3_upload E (uploads w) (mkUpload bucket key obj)).
  - eexists _, _. split; [reflexivity|]. split; [reflexivity|].
    split; [discriminate|]. split; [now intros ex [= <-]|].
    cbn [uploads]. rewrite length_app. cbn [List.length].
    split; [lia | discriminate].
  - eexists _, _. split; [reflexivity|]. split; [reflexivity|].
    split; [discriminate|]. split; [intros ex [=]|].
    cbn [uploads]. rewrite length_app. cbn [List.length]. split; lia.
Qed.





(** * More on the run *)

(** X15: when the upload of a usable chunk raises, [main] ends with that
    error in the world the upload left, the process exits with status 1,
    and no request is sent after those of that chunk. *)
Theorem upload_error_aborts_run (E : Env) (fuel : nat) (args : Args)
    (w w1 w2 w3 : World) (s3_output : string) (pre post : list Chunk) (c : Chunk)
    (any : bool) (data : pyval) (start_dt : date) (ex : exn) :
  S3_OUTPUT args = Some s3_output -> s3_output <> EmptyString ->
  split_into_month_aligned_chunks fuel (fst (run_interval args))
    (snd (run_interval args)) (MAX_DAYS_PER_CALL args) = Ok (pre ++ c :: post)%list ->
  chunk_loop E s3_output (CURRENCIES args) (ACCESS_KEY args) pre false w
  = (Ok any, w1) ->
  call_timeframe E (start_date c) (end_date c) (CURRENCIES args) (ACCESS_KEY args) w1
  = (Ok data, w2) ->
  validate data = Usable ->
  fromisoformat (start_date c) = Ok start_dt ->
  upload_json_to_s3 E data (s3_target_of s3_output c start_dt) w2 = (Raise ex, w3) ->
  main E fuel args w = (Raise ex, w3) /\
  script E fuel args w = (Ok 1, w3) /\
  requests_sent w3 = requests_sent w2.
Proof.
  intros Hs Hne Hsplit Hpre Hfetch Hval Hdt Hup.
  destruct (upload_json_to_s3_spec E data (s3_target_of s3_output c start_dt) w2)
    as (r & w' & Hspec & Hreq & _ & Hex & _).
  rewrite Hup in Hspec. injection Hspec as <- <-.
  assert (Hmain : main E fuel args w = (Raise ex, w3)).
  { rewrite (main_with_output E fuel args w s3_output Hs Hne), Hsplit.
    rewrite chunk_loop_app, Hpre, chunk_loop_cons, Hfetch, Hval, Hdt, Hup.
    reflexivity. }
  split; [exact Hmain|]. split; [|exact Hreq].
  unfold script. rewrite Hmain. specialize (Hex ex eq_refl).
  now destruct ex.
Qed.

Lemma upload_error_aborts_run_witness :
  exists ex w2 w3,
    main (failing_store_env some_quotes "AccessDenied") 40
      (example_args "s3://bucket/raw/" 365) empty_world = (Raise ex, w3) /\
    script (failing_store_env some_quotes "AccessDenied") 40
      (example_args "s3://bucket/raw/" 365) empty_world = (Ok 1, w3) /\
    requests_sent w3 = requests_sent w2.
Proof.
  eexists _, _, _.
  apply (upload_error_aborts_run (failing_store_env some_quotes "AccessDenied") 40
           (example_args "s3://bucket/raw/" 365) empty_world empty_world _ _
           "s3://bucket/raw/" [] [mkChunk "2025-06-01" "2025-06-10"]
           (mkChunk "2025-05-15" "2025-05-31") false some_quotes (mkdate 2025 5 15)).
  - reflexivity.
  - discriminate.
  - reflexivity.
  - reflexivity.
  - reflexivity.
  - reflexivity.
  - reflexivity.
  - reflexivity.
Defined.

Lemma fromisoformat_raise s ex :
  fromisoformat s = Raise ex -> is_Exception ex = true.
Proof.
  unfold fromisoformat, PyDate.new. intros H.
  repeat match type of H with
         | context [match ?x with _ => _ end] => destruct x
         end;
    first [discriminate | injection H as <-; reflexivity].
Qed.

Lemma fromisoformat_fuel s : fromisoformat s <> OutOfFuel.
Proof.
  unfold fromisoformat, PyDate.new.
  repeat match goal with
         | |- context [match ?x with _ => _ end] => destruct x
         end; discriminate.
Qed.

Section LoopEnds.

Variables (E : Env) (s3_output : string) (currencies : list string)
  (access_key : option string).

Let loop := chunk_loop E s3_output currencies access_key.

(** The loop ends with a value or an [Exception], and only adds uploads;
    when it ends with [any_uploaded] true that was false, it added one. *)
Lemma chunk_loop_ends chunks :
  forall w any r w',
    loop chunks any w = (r, w') ->
    r <> OutOfFuel /\ (forall ex, r = Raise ex -> is_Exception ex = true) /\
    (List.length (uploads w) <= List.length (uploads w'))%nat /\
    (r = Ok true -> any = false ->
     (List.length (uploads w) < List.length (uploads w'))%nat).
Proof.
  induction chunks as [|c rest IH]; intros w any r w' H.
  - injection H as <- <-. split; [discriminate|]. split; [intros ex [=]|].
    split; [lia|]. intros [= ->]. discriminate.
  - unfold loop in H. rewrite chunk_loop_cons in H. fold loop in H.
    destruct (call_timeframe_spec E (start_date c) (end_date c) currencies
                access_key w) as (k & res & Hrun & _ & Hres).
    rewrite Hrun in H.
    destruct Hres as [(data & -> & _) | (_ & ex & -> & _)].
    2:{ injection H as <- <-. split; [discriminate|].
        split; [now intros ? [= <-]|]. cbn [after_requests uploads].
        split; [lia | discriminate]. }
    destruct (validate data).
    2:{ apply IH in H. exact H. }
    pose proof (fromisoformat_fuel (start_date c)) as Hf.
    destruct (fromisoformat (start_date c)) as [dt|e|] eqn:Hdt; [| |contradiction].
    2:{ injection H as <- <-. split; [discriminate|].
        split; [intros ? [= <-]; now apply fromisoformat_raise in Hdt|].
        cbn [after_requests uploads]. split; [lia | discriminate]. }
    destruct (upload_json_to_s3_spec E data (s3_target_of s3_output c dt)
                (after_requests w
                   (mkRequest API_URL
                      (query_of (start_date c) (end_date c) currencies access_key) 30)
                   k))
      as (ru & wu & Hup & _ & Hne & Hex & Hlen & Hgrow).
    cbn [after_requests uploads] in Hlen, Hgrow.
    rewrite Hup in H. destruct ru as [[]|e|]; [| |contradiction].
    + apply IH in H. destruct H as (H1 & H2 & H3 & _).
      specialize (Hgrow eq_refl).
      split; [exact H1|]. split; [exact H2|]. split; lia.
    + injection H as <- <-. split; [discriminate|].
      split; [intros ? [= <-]; now apply Hex|]. split; [lia | discriminate].
Qed.

End LoopEnds.

(** X16: when the process exits with status 0, [upload_file] was called at
    least once during the run. *)
Theorem exit_status_zero_means_an_upload (E : Env) (fuel : nat) (args : Args)
    (w w' : World) :
  script E fuel args w = (Ok 0, w') ->
  (List.length (uploads w) < List.length (uploads w'))%nat.
Proof.
  intros H. unfold script in H.
  destruct (S3_OUTPUT args) as [s3_output|] eqn:Hout.
  2:{ rewrite main_no_output in H by now left. discriminate. }
  destruct (String.eqb_spec s3_output EmptyString) as [->|Hne].
  { rewrite main_no_output in H by now right. discriminate. }
  rewrite (main_with_output E fuel args w s3_output Hout Hne) in H.
  destruct (split_into_month_aligned_chunks fuel (fst (run_interval args))
              (snd (run_interval args)) (MAX_DAYS_PER_CALL args))
    as [chunks|ex|] eqn:Hsplit.
  - destruct (chunk_loop E s3_output (CURRENCIES args) (ACCESS_KEY args) chunks
                false w) as [r w1] eqn:Hloop.
    destruct (chunk_loop_ends E s3_output (CURRENCIES args) (ACCESS_KEY args)
                chunks w false r w1 Hloop) as (_ & Hex & _ & Hgrow).
    destruct r as [[|]|ex|]; cbn [negb] in H.
    + injection H as <-. now apply Hgrow.
    + discriminate.
    + specialize (Hex ex eq_refl). destruct ex; discriminate.
    + discriminate.
  - apply split_loop_raise in Hsplit. destruct ex; discriminate.
  - discriminate.
Qed.

Lemma exit_status_zero_means_an_upload_witness :
  (List.length (uploads empty_world)
   < List.length
       (uploads
          (snd (script (constant_env some_quotes) 40
                  (example_args "s3://bucket/raw/" 365) empty_world))))%nat.
Proof.
  apply (exit_status_zero_means_an_upload (constant_env some_quotes) 40
           (example_args "s3://bucket/raw/" 365) empty_world).
  reflexivity.
Defined.

Lemma run_interval_swap s3 a b currencies key md :
  valid a -> valid b ->
  run_interval (mkArgs s3 b a currencies key md)
  = run_interval (mkArgs s3 a b currencies key md).
Proof.
  intros Ha Hb. unfold run_interval. cbn [START_DATE END_DATE].
  rewrite !ltb_toordinal by assumption.
  destruct (Z.ltb_spec (toordinal a) (toordinal b)),
    (Z.ltb_spec (toordinal b) (toordinal a)); try reflexivity; try lia.
  assert (a = b) by (apply toordinal_inj; auto; lia). now subst.
Qed.

(** X17: the run does not depend on the order of its two dates: with
    [START_DATE] and [END_DATE] exchanged, the process does the same and
    exits the same. *)
Theorem run_ignores_date_order (E : Env) (fuel : nat) (s3 : option string)
    (a b : date) (currencies : list string) (key : option string) (md : Z)
    (w : World) :
  valid a -> valid b ->
  script E fuel (mkArgs s3 b a currencies key md) w
  = script E fuel (mkArgs s3 a b currencies key md) w.
Proof.
  intros Ha Hb. unfold script.
  assert (Hmain : main E fuel (mkArgs s3 b a currencies key md) w
                  = main E fuel (mkArgs s3 a b currencies key md) w).
  { destruct s3 as [s3_output|]; [|reflexivity].
    destruct (String.eqb_spec s3_output EmptyString) as [->|Hne]; [reflexivity|].
    rewrite (main_with_output E fuel (mkArgs (Some s3_output) b a currencies key md)
               w s3_output eq_refl Hne).
    rewrite (main_with_output E fuel (mkArgs (Some s3_output) a b currencies key md)
               w s3_output eq_refl Hne).
    now rewrite (run_interval_swap (Some s3_output) a b currencies key md Ha Hb). }
  now rewrite Hmain.
Qed.

Lemma run_ignores_date_order_witness :
  script (constant_env some_quotes) 40
    (mkArgs (Some "s3://bucket/raw/") (mkdate 2025 6 10) (mkdate 2025 5 15)
       ["USD"] None 365) empty_world
  = script (constant_env some_quotes) 40
      (mkArgs (Some "s3://bucket/raw/") (mkdate 2025 5 15) (mkdate 2025 6 10)
         ["USD"] None 365) empty_world.
Proof.
  apply (run_ignores_date_order (constant_env some_quotes) 40
           (Some "s3://bucket/raw/") (mkdate 2025 5 15) (mkdate 2025 6 10)
           ["USD"] None 365 empty_world).
  - reflexivity.
  - reflexivity.
Defined.




